(** * paddle.distributed.spawn: planning, launching and supervising a
    pool of worker processes

    A shallow embedding of [python/paddle/distributed/spawn.py].

    - Python values that travel through the option dictionary and the
      queues are the tagged union [pyval].
    - The keyword dictionary [**options] is an association list: Python
      keeps the insertion order of keyword arguments, and the order decides
      which unknown key is reported.
    - [self.sentinels] is a finite map from sentinel to worker index.
    - Exceptions are values of [exn]; every function that can raise returns
      an [outcome].
    - A [multiprocessing.SimpleQueue] is the list of the items it holds,
      oldest first.
    - A child process is a record of its sentinel, its daemon flag and its
      state as the parent can observe it through [is_alive], [terminate],
      [join] and [exitcode]. *)

From Stdlib Require Import Ascii String.
From stdpp Require Import base gmap list strings pretty.

Open Scope Z_scope.

(** ** Python values, exceptions and outcomes *)

Inductive pyval : Type :=
  | PyNone
  | PyBool (b : bool)
  | PyInt (z : Z)
  | PyStr (s : string).

Inductive exn : Type :=
  | ValueError (msg : string)
  | RuntimeError (msg : string)
  | TypeError (msg : string)
  | AttributeError (msg : string)
  | KeyError (key : Z)
  | IndexError (msg : string)
  | Exception (msg : string).

Inductive outcome (A : Type) : Type :=
  | Return (a : A)
  | Raise (e : exn).
Arguments Return {A} a.
Arguments Raise {A} e.

#[global] Instance outcome_ret : MRet outcome := λ A a, Return a.
#[global] Instance outcome_bind : MBind outcome := λ A B k m,
  match m with
  | Return a => k a
  | Raise e => Raise e
  end.

Definition is_raise {A} (o : outcome A) : bool :=
  match o with Raise _ => true | Return _ => false end.

(** The text an exception carries. *)
Definition exn_message (e : exn) : string :=
  match e with
  | ValueError m | RuntimeError m | TypeError m | AttributeError m
  | IndexError m | Exception m => m
  | KeyError k => pretty k
  end.

(** The specification's error taxonomy: a [ConfigurationError] is what the
    module raises as [ValueError] or [RuntimeError]; a [WorkerFailure] is
    what [_throw_exception] raises as a plain [Exception]. *)
Definition is_ConfigurationError (e : exn) : bool :=
  match e with
  | ValueError _ | RuntimeError _ => true
  | _ => false
  end.

Definition is_WorkerFailure (e : exn) : bool :=
  match e with
  | Exception _ => true
  | _ => false
  end.

(** ** Strings *)

Definition comma : ascii := "," % char.
Definition newline : string := String (ascii_of_nat 10) EmptyString.

(** [s.split(',')] *)
Fixpoint split_comma (s : string) : list string :=
  match s with
  | EmptyString => [EmptyString]
  | String a s' =>
      if Ascii.eqb a comma then EmptyString :: split_comma s'
      else match split_comma s' with
           | [] => [String a EmptyString]
           | h :: t => String a h :: t
           end
  end.

(** [",".join(l)] *)
Fixpoint join_comma (l : list string) : string :=
  match l with
  | [] => EmptyString
  | [x] => x
  | x :: rest => x +:+ String comma (join_comma rest)
  end.


(** [needle in hay], on strings: this is how a message names a key, an id
    or a number. *)
Fixpoint occurs (needle hay : string) : bool :=
  String.prefix needle hay ||
  match hay with
  | EmptyString => false
  | String _ hay' => occurs needle hay'
  end.

Definition names (msg : string) (needle : string) : Prop :=
  occurs needle msg = true.

(** [x in l], on a list of strings. *)
Definition str_in (x : string) (l : list string) : bool :=
  bool_decide (x ∈ l).

(** ** The option dictionary *)

Definition kwargs : Type := list (string * pyval).

(** [options.get(key, default)] *)
Fixpoint dict_get (options : kwargs) (key : string) (default : pyval) : pyval :=
  match options with
  | [] => default
  | (k, v) :: rest => if String.eqb k key then v else dict_get rest key default
  end.

Definition is_None (v : pyval) : bool :=
  match v with PyNone => true | _ => false end.

(** Python truthiness, as used by [if args.print_config:]. *)
Definition truthy (v : pyval) : bool :=
  match v with
  | PyNone => false
  | PyBool b => b
  | PyInt z => negb (z =? 0)
  | PyStr s => negb (String.eqb s EmptyString)
  end.

Definition supported_options : list string :=
  [ "start_method"; "cluster_node_ips"; "node_ip"; "started_port";
    "selected_gpus"; "print_config"; "use_paddlecloud" ]%string.

Definition unsupported_option_message (key : string) : string :=
  "The config option (" +:+ key +:+
  ") of `paddle.distributed.spawn` is not supported.".

Fixpoint _options_valid_check (options : kwargs) : outcome unit :=
  match options with
  | [] => Return tt
  | (key, _) :: rest =>
      if str_in key supported_options then _options_valid_check rest
      else Raise (ValueError (unsupported_option_message key))
  end.

(** ** The interpreter and the machine

    What the module reads from its surroundings: [sys.version_info]
    (major, minor), [os.environ], [core.get_cuda_device_count()],
    [paddle.device.get_device()], [_cpu_num()], and the sentinel the
    operating system gives the [i]-th process that is started. *)
Record Ambient : Type := {
  version_info : Z * Z;
  os_environ : gmap string string;
  get_cuda_device_count : Z;
  get_device : string;
  _cpu_num : Z;
  new_sentinel : nat → Z;
}.

(** [sys.version_info >= (3, 4)] *)
Definition version_ge_3_4 (v : Z * Z) : bool :=
  (3 <? v.1) || ((v.1 =? 3) && (4 <=? v.2)).

Definition py_unsupported_message : string :=
  "Use `paddle.distributed.spawn` to start parallel training " +:+
  "requires python version greater than 3.4, if your python " +:+
  "is lower than this version, please use " +:+
  "`paddle.distributed.launch` instead.".

Definition _py_supported_check (amb : Ambient) : outcome unit :=
  if negb (version_ge_3_4 (version_info amb))
  then Raise (RuntimeError py_unsupported_message)
  else Return tt.

(** ** The environment planner *)

Record ParallelEnvArgs : Type := {
  cluster_node_ips : pyval;
  node_ip : pyval;
  use_paddlecloud : pyval;
  started_port : pyval;
  print_config : pyval;
  selected_gpus : pyval;
}.

Definition default_node_ip : string := "127.0.0.1".

(** The visible devices: [CUDA_VISIBLE_DEVICES] split at commas, or, when
    the variable is unset or empty, the ids [0 .. count-1]. *)
Definition env_devices_list (amb : Ambient) : list string :=
  let all := (pretty : Z → string) <$> seqZ 0 (get_cuda_device_count amb) in
  match os_environ amb !! "CUDA_VISIBLE_DEVICES"%string with
  | None => all
  | Some env_devices =>
      if String.eqb env_devices EmptyString then all
      else split_comma env_devices
  end.

Definition too_few_devices_message (visible : nat) (nprocs : Z) : string :=
  "the number of visible devices(" +:+ pretty visible +:+
  ") is less than the number " +:+
  "of spawn processes(" +:+ pretty nprocs +:+
  "), please ensure that the correct " +:+
  "`nprocs` argument is passed or the environment variable " +:+
  "`CUDA_VISIBLE_DEVICES` is correctly configured.".

Definition card_not_found_message (card_id : string) (devices : list string)
    : string :=
  "The selected gpu card " +:+ card_id +:+ " cannot found in " +:+
  "CUDA_VISIBLE_DEVICES (" +:+ join_comma devices +:+ ").".

Definition node_ip_missing_message : string :=
  "please input current node ip, " +:+
  "cannot only give `cluster_node_ips`.".

(** [[str(env_devices_list[x]) for x in range(0, nprocs)]] *)
Fixpoint index_each (devices : list string) (xs : list Z)
    : outcome (list string) :=
  match xs with
  | [] => Return []
  | x :: rest =>
      match devices !! Z.to_nat x with
      | None => Raise (IndexError "list index out of range")
      | Some d => ds ← index_each devices rest; Return (d :: ds)
      end
  end.

(** [for card_id in args.selected_gpus.split(','): ...] *)
Fixpoint check_cards (cards : list string) (devices : list string)
    : outcome unit :=
  match cards with
  | [] => Return tt
  | card_id :: rest =>
      if negb (str_in card_id devices)
      then Raise (ValueError (card_not_found_message card_id devices))
      else check_cards rest devices
  end.

(** The device selection handed to the topology resolver. *)
Definition plan_selected_gpus (amb : Ambient) (nprocs : Z) (options : kwargs)
    : outcome pyval :=
  let selected := dict_get options "selected_gpus" PyNone in
  let devices := env_devices_list amb in
  match selected with
  | PyNone =>
      if Z.of_nat (length devices) <? nprocs
      then Raise (RuntimeError (too_few_devices_message (length devices) nprocs))
      else ds ← index_each devices (seqZ 0 nprocs);
           Return (PyStr (join_comma ds))
  | PyStr s => _ ← check_cards (split_comma s) devices; Return selected
  | _ => Raise (AttributeError "object has no attribute 'split'")
  end.

(** ** The worker wrapper

    What calling the user function in a child can do: return a value, or
    raise.  Python's [except KeyboardInterrupt] and [except Exception]
    tell three kinds of exception apart: [KeyboardInterrupt], the
    subclasses of [Exception] (carried here with their formatted
    traceback, which is what [traceback.format_exc()] yields in the
    handler), and the remaining [BaseException]s such as [SystemExit].

    A returned value is put on the result queue inside the same [try].
    [SimpleQueue.put] pickles the value first and raises an [Exception]
    for a value that cannot be pickled: [Returns v] is the return of a
    value that can be pickled, [ReturnsUnpicklable traceback] the return
    of one that cannot, with the formatted traceback of the exception that
    [put] then raises. *)
Inductive py_raise : Type :=
  | KeyboardInterrupt
  | StdException (traceback : string)
  | SystemExit (code : Z)
  | OtherBaseException (traceback : string).

Inductive func_result : Type :=
  | Returns (v : pyval)
  | ReturnsUnpicklable (traceback : string)
  | Raises (e : py_raise).

(** The user function, applied to its arguments in a process environment. *)
Definition user_func : Type := list pyval → gmap string string → func_result.

(** The part of a child process the wrapper touches. *)
Record child : Type := {
  environ : gmap string string;
  error_queue : list string;
  return_queue : list pyval;
}.

(** How control leaves [_func_wrapper]: by falling off its end, by its own
    [sys.exit(1)], or by an exception it does not catch. *)
Inductive wrapper_exit : Type :=
  | WrapperReturns
  | WrapperSysExit (code : Z)
  | WrapperPropagates (e : py_raise).

Definition _remove_risky_env (env : gmap string string) : gmap string string :=
  delete "https_proxy"%string (delete "http_proxy"%string env).

Definition _set_trainer_env (env_dict env : gmap string string)
    : gmap string string :=
  map_fold (λ var_name value acc, <[var_name := value]> acc) env env_dict.

Definition _func_wrapper (func : user_func) (args : list pyval)
    (env_dict : gmap string string) (c : child) : child * wrapper_exit :=
  let env := _set_trainer_env env_dict (_remove_risky_env (environ c)) in
  match func args env with
  | Returns result =>
      ({| environ := env; error_queue := error_queue c;
          return_queue := return_queue c ++ [result] |}, WrapperReturns)
  | ReturnsUnpicklable traceback =>
      ({| environ := env; error_queue := error_queue c ++ [traceback];
          return_queue := return_queue c |}, WrapperSysExit 1)
  | Raises KeyboardInterrupt =>
      ({| environ := env; error_queue := error_queue c;
          return_queue := return_queue c |}, WrapperReturns)
  | Raises (StdException traceback) =>
      ({| environ := env; error_queue := error_queue c ++ [traceback];
          return_queue := return_queue c |}, WrapperSysExit 1)
  | Raises e =>
      ({| environ := env; error_queue := error_queue c;
          return_queue := return_queue c |}, WrapperPropagates e)
  end.

(** The exit code the parent reads for a child whose target left this
    way: 0 after a normal return, 1 after an uncaught exception other than
    [SystemExit], and for a [SystemExit] the low byte of its code, which
    is all the operating system keeps of an exit status. *)
Definition process_exitcode (x : wrapper_exit) : Z :=
  match x with
  | WrapperReturns => 0
  | WrapperSysExit code => code mod 256
  | WrapperPropagates (SystemExit code) => code mod 256
  | WrapperPropagates _ => 1
  end.

(** ** Processes *)

(** What a worker does if it is left to run to its end: the items it puts
    on its two queues and the code it exits with. *)
Record completion : Type := {
  writes_error : list string;
  writes_return : list pyval;
  exit_status : Z;
}.

Definition run_worker (func : user_func) (args : list pyval)
    (env_dict : gmap string string) (inherited : gmap string string)
    : completion :=
  let r := _func_wrapper func args env_dict
             {| environ := inherited; error_queue := []; return_queue := [] |} in
  {| writes_error := error_queue r.1;
     writes_return := return_queue r.1;
     exit_status := process_exitcode r.2 |}.

(** A child is running (and will complete as recorded), or has exited
    without having been waited for, or has been waited for (reaped). *)
Inductive pstate : Type :=
  | Running (c : completion)
  | Exited (code : Z)
  | Reaped (code : Z).

Record Process : Type := {
  sentinel : Z;
  daemon : bool;
  status : pstate;
}.

Definition SIGTERM : Z := 15.

Definition set_status (p : Process) (s : pstate) : Process :=
  {| sentinel := sentinel p; daemon := daemon p; status := s |}.

(** [process.is_alive()] *)
Definition is_alive (p : Process) : bool :=
  match status p with Running _ => true | _ => false end.

(** [process.exitcode] *)
Definition exitcode (p : Process) : option Z :=
  match status p with
  | Running _ => None
  | Exited code | Reaped code => Some code
  end.

(** [process.terminate()]: SIGTERM ends a running child; a child that has
    exited is left as it is. *)
Definition terminate (p : Process) : Process :=
  match status p with
  | Running _ => set_status p (Exited (- SIGTERM))
  | _ => p
  end.

Definition is_reaped (p : Process) : bool :=
  match status p with Reaped _ => true | _ => false end.

(** The code a process ends with when nobody terminates it. *)
Definition final_code (p : Process) : Z :=
  match status p with
  | Running c => exit_status c
  | Exited code | Reaped code => code
  end.

(** [process.join()] on the process alone: it ends reaped, with the code
    it was going to end with. *)
Definition reap (p : Process) : Process :=
  set_status p (Reaped (final_code p)).

(** What the draining loop does to one process: terminate it if it is
    alive, then wait for it. *)
Definition drained (p : Process) : Process := reap (terminate p).

(** ** The pool *)

Record MultiprocessContext : Type := {
  error_queues : list (list string);
  return_queues : list (list pyval);
  processes : list Process;
  sentinels : gmap Z nat;
}.

(** [{process.sentinel: index for index, process in enumerate(processes)}] *)
Definition make_sentinels (ps : list Process) : gmap Z nat :=
  foldl (λ m ip, <[sentinel ip.2 := ip.1]> m) ∅ (imap pair ps).

Definition MultiprocessContext__init__ (amb : Ambient) (ps : list Process)
    (eqs : list (list string)) (rqs : list (list pyval))
    : outcome MultiprocessContext :=
  _ ← _py_supported_check amb;
  Return {| error_queues := eqs; return_queues := rqs; processes := ps;
            sentinels := make_sentinels ps |}.

Definition set_processes (ctx : MultiprocessContext) (ps : list Process)
    : MultiprocessContext :=
  {| error_queues := error_queues ctx; return_queues := return_queues ctx;
     processes := ps; sentinels := sentinels ctx |}.

(** [self.processes[index].join()]: wait until the child has exited and
    reap it.  A child that was still running has by then run to its end,
    so what it puts on its queues is there. *)
Definition process_join (index : nat) (ctx : MultiprocessContext)
    : MultiprocessContext :=
  match processes ctx !! index with
  | None => ctx
  | Some p =>
      match status p with
      | Running c =>
          {| error_queues :=
               alter (λ q, q ++ writes_error c) index (error_queues ctx);
             return_queues :=
               alter (λ q, q ++ writes_return c) index (return_queues ctx);
             processes :=
               <[index := set_status p (Reaped (exit_status c))]> (processes ctx);
             sentinels := sentinels ctx |}
      | Exited code =>
          set_processes ctx (<[index := set_status p (Reaped code)]> (processes ctx))
      | Reaped _ => ctx
      end
  end.

(** A child that runs to its end has exited and has not been waited for
    yet. *)
Definition finish (p : Process) : Process :=
  match status p with
  | Running c => set_status p (Exited (exit_status c))
  | _ => p
  end.

(** The child [index] runs to its end: what it puts on its queues is
    there, and it has exited. *)
Definition child_exits (index : nat) (ctx : MultiprocessContext)
    : MultiprocessContext :=
  match processes ctx !! index with
  | None => ctx
  | Some p =>
      match status p with
      | Running c =>
          {| error_queues :=
               alter (λ q, q ++ writes_error c) index (error_queues ctx);
             return_queues :=
               alter (λ q, q ++ writes_return c) index (return_queues ctx);
             processes := <[index := finish p]> (processes ctx);
             sentinels := sentinels ctx |}
      | _ => ctx
      end
  end.

(** [multiprocessing.connection.wait(self.sentinels.keys(), timeout)]
    returns the sentinels of the children that have exited.  [wait ctx
    ready] is the pool at the moment the call returns [ready]: the
    children it names have run to their end. *)
Definition wait (ctx : MultiprocessContext) (ready : list Z)
    : MultiprocessContext :=
  foldl (λ acc s,
           match sentinels acc !! s with
           | Some index => child_exits index acc
           | None => acc
           end) ctx ready.

(** The workers run beside their parent.  [exit_early early ctx] is the
    pool once the workers at the indices [early] have run to their end
    without the parent having looked at them. *)
Definition exit_early (early : list nat) (ctx : MultiprocessContext)
    : MultiprocessContext :=
  foldl (λ acc index, child_exits index acc) ctx early.

(** The code worker [index] ends with when nobody terminates it. *)
Definition code_at (ctx : MultiprocessContext) (index : nat) : option Z :=
  final_code <$> processes ctx !! index.

(** The first loop of [join]: [for sentinel in ready: ...].  It yields the
    value of [error_index] at the end of the loop. *)
Fixpoint inspect_ready (ready : list Z) (ctx : MultiprocessContext)
    : outcome (option nat) * MultiprocessContext :=
  match ready with
  | [] => (Return None, ctx)
  | s :: rest =>
      match sentinels ctx !! s with
      | None => (Raise (KeyError s), ctx)
      | Some index =>
          let ctx1 :=
            {| error_queues := error_queues ctx;
               return_queues := return_queues ctx;
               processes := processes ctx;
               sentinels := delete s (sentinels ctx) |} in
          match processes ctx1 !! index with
          | None => (Raise (IndexError "list index out of range"), ctx1)
          | Some _ =>
              let ctx2 := process_join index ctx1 in
              if bool_decide ((processes ctx2 !! index) ≫= exitcode ≠ Some 0)
              then (Return (Some index), ctx2)
              else inspect_ready rest ctx2
          end
      end
  end.

(** A pool is well formed when every sentinel leads to a process, as in a
    pool that [MultiprocessContext__init__] has built. *)
Definition well_formed (ctx : MultiprocessContext) : Prop :=
  ∀ s index, sentinels ctx !! s = Some index →
    is_Some (processes ctx !! index).

(** What [wait] can return: sentinels it was given, each once. *)
Definition wait_result (ctx : MultiprocessContext) (ready : list Z) : Prop :=
  NoDup ready ∧ ∀ s, s ∈ ready → is_Some (sentinels ctx !! s).

(** What a process still has to put on its error queue. *)
Definition pending_errors (p : Process) : list string :=
  match status p with
  | Running c => writes_error c
  | _ => []
  end.

(** What a process still has to put on its result queue. *)
Definition pending_returns (p : Process) : list pyval :=
  match status p with
  | Running c => writes_return c
  | _ => []
  end.

(** The error queue of worker [index] once that worker has exited. *)
Definition settled_error_queue (ctx : MultiprocessContext) (index : nat)
    : option (list string) :=
  match processes ctx !! index, error_queues ctx !! index with
  | Some p, Some q => Some (q ++ pending_errors p)
  | _, _ => None
  end.

(** The second loop of [join]: [for process in self.processes: ...]. *)
Definition drain_step (ctx : MultiprocessContext) (index : nat)
    : MultiprocessContext :=
  match processes ctx !! index with
  | None => ctx
  | Some p =>
      process_join index
        (if is_alive p
         then set_processes ctx (<[index := terminate p]> (processes ctx))
         else ctx)
  end.

Definition drain (ctx : MultiprocessContext) : MultiprocessContext :=
  foldl drain_step ctx (seq 0 (length (processes ctx))).

Definition framed_trace_message (error_index : nat) : string :=
  newline +:+ newline +:+
  "----------------------------------------------" +:+ newline +:+
  "Process " +:+ pretty error_index +:+
  " terminated with the following error:" +:+ newline +:+
  "----------------------------------------------" +:+ newline +:+ newline.

Definition signal_message (error_index : nat) (name : string) : string :=
  "Process " +:+ pretty error_index +:+ " terminated with signal " +:+
  name +:+ ".".

(** The text the format string of the exit-code branch gives under [%];
    the source applies [&] to the format string and the tuple instead. *)
Definition exit_code_message (error_index : nat) (code : Z) : string :=
  "Process " +:+ pretty error_index +:+ " terminated with exit code " +:+
  pretty code +:+ ".".


(** The process that the launching loop of [spawn] starts at index [i],
    given the planned environment records. *)
Definition started_process (amb : Ambient) (func : user_func)
    (args : list pyval) (daemon_flag : bool)
    (procs_env_list : list (gmap string string)) (i : nat) : Process :=
  {| sentinel := new_sentinel amb i;
     daemon := daemon_flag;
     status := Running (run_worker func args (default ∅ (procs_env_list !! i))
                          (os_environ amb)) |}.

(** Two pools agree on worker [j]: on its process and on its two queues. *)
Definition same_at (j : nat) (a b : MultiprocessContext) : Prop :=
  processes a !! j = processes b !! j ∧
  error_queues a !! j = error_queues b !! j ∧
  return_queues a !! j = return_queues b !! j.

(** The sentinel map and the processes fit together: a sentinel of the map
    leads to the process that has it, and a process that is not in the map
    under its sentinel has been reaped with code 0. *)
Definition sentinels_track (ctx : MultiprocessContext) : Prop :=
  (∀ s i, sentinels ctx !! s = Some i →
     ∃ p, processes ctx !! i = Some p ∧ sentinel p = s) ∧
  (∀ i p, processes ctx !! i = Some p →
     sentinels ctx !! sentinel p = Some i ∨ status p = Reaped 0).
(** ** The topology resolver of the specification *)





(** ** A machine, a resolver, workers and pools to run the model on *)

(** The names of the standard signals on Linux. *)
Definition linux_signal_names : list (Z * string) :=
  [ (1, "SIGHUP"); (2, "SIGINT"); (3, "SIGQUIT"); (4, "SIGILL");
    (5, "SIGTRAP"); (6, "SIGABRT"); (7, "SIGBUS"); (8, "SIGFPE");
    (9, "SIGKILL"); (10, "SIGUSR1"); (11, "SIGSEGV"); (12, "SIGUSR2");
    (13, "SIGPIPE"); (14, "SIGALRM"); (15, "SIGTERM"); (17, "SIGCHLD");
    (18, "SIGCONT"); (19, "SIGSTOP"); (20, "SIGTSTP"); (21, "SIGTTIN");
    (22, "SIGTTOU"); (23, "SIGURG"); (24, "SIGXCPU"); (25, "SIGXFSZ");
    (26, "SIGVTALRM"); (27, "SIGPROF"); (28, "SIGWINCH"); (29, "SIGIO");
    (30, "SIGPWR"); (31, "SIGSYS") ]%string.

Fixpoint assoc_Z (l : list (Z * string)) (n : Z) : option string :=
  match l with
  | [] => None
  | (k, v) :: rest => if k =? n then Some v else assoc_Z rest n
  end.

Definition linux_Signals (n : Z) : option string :=
  assoc_Z linux_signal_names n.

(** Python 3.8 on a machine with two visible devices. *)
Definition two_gpu_machine : Ambient :=
  {| version_info := (3, 8);
     os_environ := {[ "CUDA_VISIBLE_DEVICES"%string := "0,1"%string ]};
     get_cuda_device_count := 2;
     get_device := "gpu:0";
     _cpu_num := 1;
     new_sentinel := λ i, 100 + Z.of_nat i |}.

(** Python 2.7 on the same machine. *)
Definition old_python_machine : Ambient :=
  {| version_info := (2, 7);
     os_environ := os_environ two_gpu_machine;
     get_cuda_device_count := 2;
     get_device := "gpu:0";
     _cpu_num := 1;
     new_sentinel := new_sentinel two_gpu_machine |}.

(** A resolver for one node: one trainer per selected device. *)
Definition one_node_resolver (args : ParallelEnvArgs)
    : outcome (unit * list string) :=
  match selected_gpus args with
  | PyStr s => Return (tt, split_comma s)
  | _ => Raise (ValueError "selected_gpus is not a string")
  end.

Definition one_node_trainers (pod : list string) : list string := pod.

Definition one_node_trainer_env (cluster : unit) (gpu : string)
    : gmap string string :=
  {[ "FLAGS_selected_gpus"%string := gpu ]}.


(** User functions. *)
Definition raises_boom : user_func :=
  λ _ _, Raises (StdException "ValueError: boom").

Definition raises_bang : user_func :=
  λ _ _, Raises (StdException "ValueError: bang").

Definition exits_with_2 : user_func := λ _ _, Raises (SystemExit 2).

Definition interrupted : user_func := λ _ _, Raises KeyboardInterrupt.

Definition returns_7 : user_func := λ _ _, Returns (PyInt 7).

(** A running worker of a pool, as [spawn] starts it. *)
Definition worker (s : Z) (func : user_func) : Process :=
  {| sentinel := s; daemon := false;
     status := Running (run_worker func [] ∅ ∅) |}.

(** A pool of processes whose queues are still empty. *)
Definition pool_of (ps : list Process) : MultiprocessContext :=
  {| error_queues := replicate (length ps) [];
     return_queues := replicate (length ps) [];
     processes := ps;
     sentinels := make_sentinels ps |}.

Definition two_failing_pool : MultiprocessContext :=
  pool_of [worker 100 raises_boom; worker 101 raises_bang].

Definition exit_code_pool : MultiprocessContext :=
  pool_of [worker 100 returns_7; worker 101 exits_with_2].

Definition interrupted_pool : MultiprocessContext :=
  pool_of [worker 100 interrupted; worker 101 returns_7].

Definition empty_child : child :=
  {| environ := ∅; error_queue := []; return_queue := [] |}.


Definition no_node_ip_card_9_options : kwargs :=
  [ ("cluster_node_ips", PyStr "10.0.0.1,10.0.0.2");
    ("selected_gpus", PyStr "9") ]%string.

Definition card_9_options : kwargs := [ ("selected_gpus", PyStr "9") ]%string.

Definition world_size_options : kwargs := [ ("world_size", PyInt 4) ]%string.

Definition three_worker_pool : MultiprocessContext :=
  pool_of [worker 100 returns_7; worker 101 raises_boom;
           worker 102 raises_bang].

Definition one_worker_pool : MultiprocessContext :=
  pool_of [worker 100 returns_7].

(** A pool whose only worker has been reaped with exit code 2 and has left
    nothing on its error queue. *)
Definition reaped_with_2_pool : MultiprocessContext :=
  pool_of [ {| sentinel := 100; daemon := false; status := Reaped 2 |} ].

Definition two_returning_pool : MultiprocessContext :=
  pool_of [worker 100 returns_7; worker 101 returns_7].

(** A pool whose only worker has been reaped with exit code 1 and whose
    diagnostic is on its error queue. *)
Definition diagnosed_pool : MultiprocessContext :=
  {| error_queues := [["ValueError: boom"%string]];
     return_queues := [[]];
     processes := [ {| sentinel := 100; daemon := false; status := Reaped 1 |} ];
     sentinels := ∅ |}.

(** A pool whose only worker has been terminated and reaped. *)
Definition terminated_pool : MultiprocessContext :=
  pool_of [ {| sentinel := 100; daemon := false;
               status := Reaped (- SIGTERM) |} ].

(** Python 3.8 on a machine with three devices and no
    [CUDA_VISIBLE_DEVICES]. *)
Definition three_gpu_machine : Ambient :=
  {| version_info := (3, 8);
     os_environ := ∅;
     get_cuda_device_count := 3;
     get_device := "gpu:0";
     _cpu_num := 1;
     new_sentinel := λ i, 100 + Z.of_nat i |}.

Definition card_0_options : kwargs := [ ("selected_gpus", PyStr "0") ]%string.

Definition card_1_options : kwargs := [ ("selected_gpus", PyStr "1") ]%string.

Definition known_options : kwargs :=
  [ ("node_ip", PyStr "10.0.0.1"); ("print_config", PyBool true) ]%string.



Definition reaped_0 (s : Z) : Process :=
  {| sentinel := s; daemon := false; status := Reaped 0 |}.

Definition exited_0 (s : Z) : Process :=
  {| sentinel := s; daemon := false; status := Exited 0 |}.
Section Spawn.

(** The collaborators this module calls and does not define:
    [signal.Signals(n).name] of the standard library ([None] where
    [Signals(n)] raises [ValueError]), [get_cluster_and_pod] of
    [paddle.distributed.launch], the [trainers] of a pod, and
    [_prepare_trainer_env] of [paddle.distributed.utils]. *)
Context {Cluster Pod Trainer : Type}.
Variable Signals : Z → option string.
Variable get_cluster_and_pod : ParallelEnvArgs → outcome (Cluster * Pod).
Variable trainers : Pod → list Trainer.
Variable _prepare_trainer_env : Cluster → Trainer → gmap string string.

(** *** Supervision *)

(** [_throw_exception] always raises; it yields the exception and the
    pool as [get()] leaves it. *)
Definition _throw_exception (ctx : MultiprocessContext) (error_index : nat)
    : exn * MultiprocessContext :=
  match error_queues ctx !! error_index with
  | None => (IndexError "list index out of range", ctx)
  | Some [] =>
      match processes ctx !! error_index with
      | None => (IndexError "list index out of range", ctx)
      | Some p =>
          match exitcode p with
          | None =>
              (TypeError
                 "'<' not supported between instances of 'NoneType' and 'int'",
               ctx)
          | Some code =>
              if code <? 0 then
                match Signals (- code) with
                | None =>
                    (ValueError (pretty (- code) +:+ " is not a valid Signals"),
                     ctx)
                | Some name =>
                    (Exception (signal_message error_index name), ctx)
                end
              else
                (TypeError
                   "unsupported operand type(s) for &: 'str' and 'tuple'",
                 ctx)
          end
      end
  | Some (original_trace :: rest) =>
      (Exception (framed_trace_message error_index +:+ original_trace),
       {| error_queues := <[error_index := rest]> (error_queues ctx);
          return_queues := return_queues ctx;
          processes := processes ctx;
          sentinels := sentinels ctx |})
  end.

(** The exception [_throw_exception] raises, as a function of the
    failing worker's index, error queue and exit code. *)
Definition failure_report (error_index : nat) (queue : list string)
    (code : Z) : exn :=
  match queue with
  | original_trace :: _ =>
      Exception (framed_trace_message error_index +:+ original_trace)
  | [] =>
      if code <? 0 then
        match Signals (- code) with
        | None => ValueError (pretty (- code) +:+ " is not a valid Signals")
        | Some name => Exception (signal_message error_index name)
        end
      else TypeError "unsupported operand type(s) for &: 'str' and 'tuple'"
  end.

(** [join], one round.  [ready] is what
    [multiprocessing.connection.wait(self.sentinels.keys(), timeout)]
    returns in this round (the empty list on a timeout); no wait is made
    when no sentinel is left. *)
Definition join (ctx : MultiprocessContext) (ready : list Z)
    : outcome bool * MultiprocessContext :=
  if bool_decide (size (sentinels ctx) = 0%nat) then (Return true, ctx)
  else
    match inspect_ready ready (wait ctx ready) with
    | (Raise e, ctx1) => (Raise e, ctx1)
    | (Return None, ctx1) =>
        (Return (bool_decide (size (sentinels ctx1) = 0%nat)), ctx1)
    | (Return (Some error_index), ctx1) =>
        let thrown := _throw_exception (drain ctx1) error_index in
        (Raise thrown.1, thrown.2)
    end.

(** [while not context.join(): pass].  [schedule] lists what the
    successive waits return; [None] means that the schedule ended with
    workers still live, that is, the last wait never returns. *)
Fixpoint join_until_done (schedule : list (list Z)) (ctx : MultiprocessContext)
    : option (outcome unit * MultiprocessContext) :=
  match schedule with
  | [] =>
      if bool_decide (size (sentinels ctx) = 0%nat)
      then Some (Return tt, ctx) else None
  | ready :: later =>
      match join ctx ready with
      | (Raise e, ctx1) => Some (Raise e, ctx1)
      | (Return true, ctx1) => Some (Return tt, ctx1)
      | (Return false, ctx1) => join_until_done later ctx1
      end
  end.

(** *** Planning *)

Record plan : Type := {
  processes_env_list : list (gmap string string);
  printed : option ParallelEnvArgs;
}.

(** [args.cluster_node_ips is not None and args.node_ip is None] *)
Definition node_ip_missing (options : kwargs) : bool :=
  negb (is_None (dict_get options "cluster_node_ips" PyNone)) &&
  is_None (dict_get options "node_ip" PyNone).

(** The arguments handed to the topology resolver. *)
Definition resolver_args (options : kwargs) (selected : pyval)
    : ParallelEnvArgs :=
  let ips := dict_get options "cluster_node_ips" PyNone in
  let ip := dict_get options "node_ip" PyNone in
  {| cluster_node_ips := if is_None ips then PyStr default_node_ip else ips;
     node_ip := if is_None ip then PyStr default_node_ip else ip;
     use_paddlecloud := dict_get options "use_paddlecloud" (PyBool false);
     started_port := dict_get options "started_port" PyNone;
     print_config := dict_get options "print_config" (PyBool false);
     selected_gpus := selected |}.

(** [cluster, pod = get_cluster_and_pod(args)] and what follows it. *)
Definition resolve_and_prepare (args : ParallelEnvArgs) : outcome plan :=
  cp ← get_cluster_and_pod args;
  Return {| processes_env_list :=
              _prepare_trainer_env cp.1 <$> trainers cp.2;
            printed := if truthy (print_config args) then Some args
                       else None |}.

Definition _get_subprocess_env_list (amb : Ambient) (nprocs : Z)
    (options : kwargs) : outcome plan :=
  if node_ip_missing options
  then Raise (ValueError node_ip_missing_message)
  else
    selected ← plan_selected_gpus amb nprocs options;
    resolve_and_prepare (resolver_args options selected).

(** *** Launching *)

(** [nprocs == -1] asks for the default. *)
Definition default_nprocs (amb : Ambient) (nprocs : Z) : Z :=
  if nprocs =? -1 then
    if String.eqb (get_device amb) "cpu" then _cpu_num amb
    else get_cuda_device_count amb
  else nprocs.

(** [multiprocessing.get_context(start_method)] knows these methods. *)
Definition start_methods : list string := ["fork"; "spawn"; "forkserver"]%string.

Definition get_context (start_method : pyval) : outcome string :=
  match start_method with
  | PyStr m =>
      if str_in m start_methods then Return m
      else Raise (ValueError ("cannot find context for '" +:+ m +:+ "'"))
  | _ => Raise (ValueError "cannot find context")
  end.

(** [options.get('start_method', None)], with its default. *)
Definition start_method_of (options : kwargs) : pyval :=
  let start_method := dict_get options "start_method" PyNone in
  if is_None start_method then PyStr "spawn" else start_method.

(** The pool under construction: the three lists [spawn] appends to. *)
Record launching : Type := {
  l_error_queues : list (list string);
  l_return_queues : list (list pyval);
  l_processes : list Process;
}.

(** [for i in range(nprocs): ...] *)
Fixpoint start_processes (amb : Ambient) (func : user_func)
    (args : list pyval) (daemon_flag : bool)
    (procs_env_list : list (gmap string string)) (indices : list nat)
    (acc : launching) : outcome unit * launching :=
  match indices with
  | [] => (Return tt, acc)
  | i :: rest =>
      match procs_env_list !! i with
      | None => (Raise (IndexError "list index out of range"), acc)
      | Some env_dict =>
          let process :=
            {| sentinel := new_sentinel amb i;
               daemon := daemon_flag;
               status := Running (run_worker func args env_dict
                                    (os_environ amb)) |} in
          start_processes amb func args daemon_flag procs_env_list rest
            {| l_error_queues := l_error_queues acc ++ [[]];
               l_return_queues := l_return_queues acc ++ [[]];
               l_processes := l_processes acc ++ [process] |}
      end
  end.

(** The processes and queues of the launching loop, as a pool without
    sentinel map. *)
Definition launched (acc : launching) : MultiprocessContext :=
  {| error_queues := l_error_queues acc;
     return_queues := l_return_queues acc;
     processes := l_processes acc;
     sentinels := ∅ |}.

(** What a call of [spawn] amounts to: how it ends, and the processes it
    has started, in the state it leaves them. *)
Record spawned : Type := {
  result : outcome MultiprocessContext;
  started : list Process;
}.

(** [spawn]; [None] when the joining loop never returns.  The workers
    run while the launching loop goes on: [early] lists the indices of
    those that have run to their end by the time the loop is left,
    [schedule] what the waits of the joining loop report after that. *)
Definition spawn (amb : Ambient) (func : user_func) (args : list pyval)
    (nprocs : Z) (join_flag : bool) (daemon_flag : bool) (options : kwargs)
    (early : list nat) (schedule : list (list Z)) : option spawned :=
  match _py_supported_check amb with
  | Raise e => Some {| result := Raise e; started := [] |}
  | Return _ =>
  match _options_valid_check options with
  | Raise e => Some {| result := Raise e; started := [] |}
  | Return _ =>
  let nprocs := default_nprocs amb nprocs in
  match _get_subprocess_env_list amb nprocs options with
  | Raise e => Some {| result := Raise e; started := [] |}
  | Return pl =>
  match get_context (start_method_of options) with
  | Raise e => Some {| result := Raise e; started := [] |}
  | Return _ =>
  match start_processes amb func args daemon_flag (processes_env_list pl)
          (seq 0 (Z.to_nat nprocs))
          {| l_error_queues := []; l_return_queues := []; l_processes := [] |}
  with
  | (Raise e, acc) =>
      Some {| result := Raise e;
              started := processes (exit_early early (launched acc)) |}
  | (Return _, acc) =>
  let world := exit_early early (launched acc) in
  match MultiprocessContext__init__ amb (processes world)
          (error_queues world) (return_queues world) with
  | Raise e => Some {| result := Raise e; started := processes world |}
  | Return context =>
      if negb join_flag
      then Some {| result := Return context; started := processes context |}
      else
        match join_until_done schedule context with
        | None => None
        | Some (Raise e, ctx1) =>
            Some {| result := Raise e; started := processes ctx1 |}
        | Some (Return _, ctx1) =>
            Some {| result := Return ctx1; started := processes ctx1 |}
        end
  end end end end end end.


(** ** Properties *)

(** Membership in a list written with [::] and [++]. *)
Ltac list_mem :=
  rewrite ?elem_of_cons, ?elem_of_app, ?list_elem_of_singleton,
    ?elem_of_nil in *;
  tauto.

(** *** Strings *)

Lemma prefix_append (k post : string) : String.prefix k (k +:+ post) = true.
Proof.
  induction k as [|a k IH]; simpl.
  - by destruct post.
  - destruct (ascii_dec a a); [exact IH | congruence].
Qed.

Lemma occurs_prefix (k hay : string) :
  String.prefix k hay = true → occurs k hay = true.
Proof. intros H. destruct hay; cbn [occurs]; by rewrite H. Qed.

Lemma occurs_append (k pre post : string) :
  occurs k (pre +:+ k +:+ post) = true.
Proof.
  induction pre as [|a pre IH].
  - change (occurs k (k +:+ post) = true).
    apply occurs_prefix, prefix_append.
  - change (occurs k (String a (pre +:+ k +:+ post)) = true).
    cbn [occurs]. rewrite IH. apply orb_true_r.
Qed.

Lemma occurs_skip (k pre hay : string) :
  occurs k hay = true → occurs k (pre +:+ hay) = true.
Proof.
  intros H. induction pre as [|a pre IH]; [done|].
  change (occurs k (String a (pre +:+ hay)) = true).
  cbn [occurs]. rewrite IH. apply orb_true_r.
Qed.

Lemma names_middle (k pre post : string) : names (pre +:+ k +:+ post) k.
Proof. apply occurs_append. Qed.

Lemma unsupported_option_message_names (key : string) :
  names (unsupported_option_message key) key.
Proof. apply names_middle. Qed.

(** *** Option validation *)

Lemma options_valid_check_unknown (options : kwargs) :
  (∃ key, key ∈ (options.*1) ∧ key ∉ supported_options) →
  ∃ pre key v post,
    options = pre ++ (key, v) :: post ∧
    Forall (λ k, k ∈ supported_options) (pre.*1) ∧
    (key ∉ supported_options) ∧
    _options_valid_check options =
      Raise (ValueError (unsupported_option_message key)).
Proof.
  induction options as [|[k v] rest IH]; intros (key & Hin & Hout).
  - inversion Hin.
  - simpl. unfold str_in. case_bool_decide as Hk.
    + destruct IH as (pre & key' & v' & post & -> & Hpre & ? & ?).
      { exists key. split; [|done].
        apply elem_of_cons in Hin as [->|]; [contradiction | done]. }
      exists ((k, v) :: pre), key', v', post.
      split_and!; [done| |done|done]. by constructor.
    + exists [], k, v, rest. split_and!; [done|by constructor|done|done].
Qed.

Lemma options_valid_check_known (options : kwargs) :
  Forall (λ key, key ∈ supported_options) (options.*1) →
  _options_valid_check options = Return tt.
Proof.
  induction options as [|[k v] rest IH]; simpl; [done|].
  intros [Hk Hrest]%Forall_cons. unfold str_in.
  rewrite bool_decide_true by done. by apply IH.
Qed.

(** *** [spawn] stops at the first check that fails *)

Lemma spawn_unknown_option amb func args nprocs join_flag daemon_flag
    options early schedule e :
  _py_supported_check amb = Return tt →
  _options_valid_check options = Raise e →
  spawn amb func args nprocs join_flag daemon_flag options early schedule =
    Some {| result := Raise e; started := [] |}.
Proof. intros H1 H2. unfold spawn. by rewrite H1, H2. Qed.

Lemma spawn_planning_failure amb func args nprocs join_flag daemon_flag
    options early schedule e :
  _get_subprocess_env_list amb (default_nprocs amb nprocs) options = Raise e →
  ∃ e', spawn amb func args nprocs join_flag daemon_flag options early schedule =
          Some {| result := Raise e'; started := [] |}.
Proof.
  intros H. unfold spawn.
  destruct (_py_supported_check amb); [|by eauto].
  destruct (_options_valid_check options); [|by eauto].
  rewrite H. by eauto.
Qed.

Lemma py_supported_check_ok amb :
  version_ge_3_4 (version_info amb) = true →
  _py_supported_check amb = Return tt.
Proof. intros H. unfold _py_supported_check. by rewrite H. Qed.

(** C7, as the code has it.  A call of [spawn] whose options hold a key
    outside [supported_options] ends with a configuration error and no
    process has been started; the outcome is the same whatever the
    topology resolver would have answered, so planning has not been
    reached.  On an interpreter that passes the version check the error
    is the [ValueError] of the option check, whose message names the
    first such key in the order of the dictionary.  On an older
    interpreter it is the [RuntimeError] of the version check, which
    comes first. *)
Theorem spawn_rejects_unknown_option amb func args nprocs join_flag
    daemon_flag (options : kwargs) early schedule :
  (∃ key, key ∈ (options.*1) ∧ key ∉ supported_options) →
  (∃ e, spawn amb func args nprocs join_flag daemon_flag options early
          schedule = Some {| result := Raise e; started := [] |} ∧
        is_ConfigurationError e = true) ∧
  (version_ge_3_4 (version_info amb) = true →
   ∃ pre key v post e,
     options = pre ++ (key, v) :: post ∧
     Forall (λ k, k ∈ supported_options) (pre.*1) ∧
     (key ∉ supported_options) ∧
     spawn amb func args nprocs join_flag daemon_flag options early schedule =
       Some {| result := Raise e; started := [] |} ∧
     e = ValueError (unsupported_option_message key) ∧
     is_ConfigurationError e = true ∧
     names (exn_message e) key) ∧
  (version_ge_3_4 (version_info amb) = false →
   spawn amb func args nprocs join_flag daemon_flag options early schedule =
     Some {| result := Raise (RuntimeError py_unsupported_message);
             started := [] |}).
Proof.
  intros Hunknown.
  destruct (options_valid_check_unknown options Hunknown)
    as (pre & key & v & post & Hsplit & Hpre & Hout & Hcheck).
  assert (Hnew : version_ge_3_4 (version_info amb) = true →
    spawn amb func args nprocs join_flag daemon_flag options early schedule =
      Some {| result := Raise (ValueError (unsupported_option_message key));
              started := [] |}).
  { intros Hv.
    apply spawn_unknown_option; [by apply py_supported_check_ok | done]. }
  assert (Hold : version_ge_3_4 (version_info amb) = false →
    spawn amb func args nprocs join_flag daemon_flag options early schedule =
      Some {| result := Raise (RuntimeError py_unsupported_message);
              started := [] |}).
  { intros Hv. unfold spawn, _py_supported_check. by rewrite Hv. }
  split_and!.
  - destruct (version_ge_3_4 (version_info amb)) eqn:Hv.
    + eexists. split; [by apply Hnew|done].
    + eexists. split; [by apply Hold|done].
  - intros Hv.
    exists pre, key, v, post, (ValueError (unsupported_option_message key)).
    split_and!; try done.
    + by apply Hnew.
    + apply unsupported_option_message_names.
  - done.
Qed.

(** *** The worker wrapper *)

(** C4, as the code has it.  The wrapper calls the user function in the
    environment it has prepared, and: a returned value that can be
    pickled goes on the result queue and nothing on the error queue, and
    the exit code is 0; for a returned value that cannot be pickled the
    traceback of the failed [put] goes on the error queue, nothing on the
    result queue, and the exit code is 1; a [KeyboardInterrupt] leaves
    both queues as they were and the exit code is 0; an [Exception] puts
    its formatted traceback on the error queue, nothing on the result
    queue, and the exit code is 1; a [SystemExit] or another
    [BaseException] passes through and leaves both queues as they were,
    with the low byte of the code of the [SystemExit], or 1, as exit
    code. *)
Theorem func_wrapper_outcomes (func : user_func) args env_dict (c : child) :
  let r := _func_wrapper func args env_dict c in
  match func args (_set_trainer_env env_dict (_remove_risky_env (environ c))) with
  | Returns v =>
      return_queue r.1 = return_queue c ++ [v] ∧
      error_queue r.1 = error_queue c ∧
      process_exitcode r.2 = 0
  | ReturnsUnpicklable traceback =>
      return_queue r.1 = return_queue c ∧
      error_queue r.1 = error_queue c ++ [traceback] ∧
      process_exitcode r.2 = 1
  | Raises KeyboardInterrupt =>
      return_queue r.1 = return_queue c ∧
      error_queue r.1 = error_queue c ∧
      process_exitcode r.2 = 0
  | Raises (StdException traceback) =>
      return_queue r.1 = return_queue c ∧
      error_queue r.1 = error_queue c ++ [traceback] ∧
      process_exitcode r.2 = 1
  | Raises (SystemExit code) =>
      return_queue r.1 = return_queue c ∧
      error_queue r.1 = error_queue c ∧
      process_exitcode r.2 = code mod 256 ∧
      0 ≤ process_exitcode r.2 < 256
  | Raises (OtherBaseException _) =>
      return_queue r.1 = return_queue c ∧
      error_queue r.1 = error_queue c ∧
      process_exitcode r.2 = 1
  end.
Proof.
  unfold _func_wrapper.
  destruct (func args _) as [v|tb|[|tb|code|tb]]; simpl; try done.
  split_and!; try done; apply Z.mod_pos_bound; lia.
Qed.

(** *** Processes and the pool *)

Lemma insert_as_alter {A} (f : A → A) (l : list A) (i : nat) (x y : A) :
  l !! i = Some y → f y = x → <[i := x]> l = alter f i l.
Proof.
  intros Hy Hf. apply list_eq. intros j.
  rewrite list_lookup_insert, list_lookup_alter.
  destruct (decide (i = j)) as [->|].
  - rewrite Hy. simpl. rewrite Hf.
    case_decide as Hd; [done|]. destruct Hd. split; [done|].
    by eapply lookup_lt_Some.
  - case_decide as Hd; [by destruct Hd|done].
Qed.

Lemma alter_fixed {A} (f : A → A) (l : list A) (i : nat) :
  (∀ y, l !! i = Some y → f y = y) → alter f i l = l.
Proof.
  intros Hf. apply list_eq. intros j. rewrite list_lookup_alter.
  destruct (decide (i = j)) as [->|]; [|done].
  destruct (l !! j) as [y|] eqn:E; [|done]. simpl. by rewrite Hf.
Qed.

Lemma final_code_reap p : final_code (reap p) = final_code p.
Proof. done. Qed.

Lemma final_code_terminate_reaped p :
  is_alive p = false → reap (terminate p) = reap p.
Proof. unfold is_alive, terminate. by destruct (status p). Qed.

Lemma is_reaped_reap p : is_reaped (reap p) = true.
Proof. done. Qed.

Lemma exitcode_reap p : exitcode (reap p) = Some (final_code p).
Proof. done. Qed.

Lemma reap_reaped p : is_reaped p = true → reap p = p.
Proof. destruct p as [s d []]; done. Qed.

Lemma process_join_processes index ctx :
  processes (process_join index ctx) = alter reap index (processes ctx).
Proof.
  unfold process_join.
  destruct (processes ctx !! index) as [p|] eqn:E.
  - destruct (status p) eqn:S; simpl.
    + apply (insert_as_alter reap _ _ _ p); [done|].
      unfold reap, final_code. by rewrite S.
    + apply (insert_as_alter reap _ _ _ p); [done|].
      unfold reap, final_code. by rewrite S.
    + symmetry. apply alter_fixed. intros y Hy. simplify_eq.
      apply reap_reaped. unfold is_reaped. by rewrite S.
  - symmetry. apply alter_fixed. intros y Hy. congruence.
Qed.

Lemma process_join_sentinels index ctx :
  sentinels (process_join index ctx) = sentinels ctx.
Proof.
  unfold process_join. destruct (processes ctx !! index) as [p|]; [|done].
  by destruct (status p).
Qed.

Lemma code_at_process_join index ctx j :
  code_at (process_join index ctx) j = code_at ctx j.
Proof.
  unfold code_at. rewrite process_join_processes, list_lookup_alter.
  destruct (decide (index = j)) as [->|]; [|done].
  by destruct (processes ctx !! j).
Qed.

Lemma exitcode_after_join index ctx :
  (processes (process_join index ctx) !! index) ≫= exitcode =
    code_at ctx index.
Proof.
  unfold code_at. rewrite process_join_processes, list_lookup_alter_eq.
  by destruct (processes ctx !! index).
Qed.

Lemma drain_step_processes ctx index :
  processes (drain_step ctx index) = alter drained index (processes ctx).
Proof.
  unfold drain_step.
  destruct (processes ctx !! index) as [p|] eqn:E.
  - rewrite process_join_processes.
    destruct (is_alive p) eqn:Ha; simpl.
    + rewrite (insert_as_alter terminate _ _ _ p) by done.
      by rewrite list_alter_alter_eq.
    + apply list_alter_ext; [|done]. intros y Hy. simplify_eq.
      unfold drained. by rewrite final_code_terminate_reaped.
  - symmetry. apply alter_fixed. intros y Hy. congruence.
Qed.

Lemma alter_each {A} (f : A → A) (pre l : list A) :
  foldl (λ acc i, alter f i acc) (pre ++ l)
    (seq (length pre) (length l)) = pre ++ (f <$> l).
Proof.
  revert pre. induction l as [|x l IH]; intros pre; [done|].
  simpl.
  replace (alter f (length pre) (pre ++ x :: l)) with ((pre ++ [f x]) ++ l).
  - specialize (IH (pre ++ [f x])).
    rewrite length_app in IH. simpl in IH.
    replace (length pre + 1)%nat with (S (length pre)) in IH by lia.
    rewrite IH. by rewrite <- app_assoc.
  - rewrite <- app_assoc. simpl.
    rewrite <- (Nat.add_0_r (length pre)) at 1.
    by rewrite alter_app_r.
Qed.

Lemma foldl_drain_step_processes ctx (idx : list nat) :
  processes (foldl drain_step ctx idx) =
    foldl (λ acc i, alter drained i acc) (processes ctx) idx.
Proof.
  revert ctx. induction idx as [|i idx IH]; intros ctx; [done|].
  simpl. by rewrite IH, drain_step_processes.
Qed.

Lemma drain_processes ctx :
  processes (drain ctx) = drained <$> processes ctx.
Proof.
  unfold drain. rewrite foldl_drain_step_processes.
  apply (alter_each drained []).
Qed.

Lemma drain_all_reaped ctx :
  Forall (λ p, is_alive p = false ∧ is_reaped p = true)
    (processes (drain ctx)).
Proof.
  rewrite drain_processes. apply Forall_fmap, Forall_true.
  intros p. unfold drained, terminate, is_alive.
  by destruct (status p).
Qed.

Lemma throw_exception_processes ctx index :
  processes (_throw_exception ctx index).2 = processes ctx.
Proof.
  unfold _throw_exception.
  destruct (error_queues ctx !! index) as [[|t q]|]; [|done|done].
  destruct (processes ctx !! index) as [p|]; [|done].
  destruct (exitcode p) as [code|]; [|done].
  destruct (code <? 0); [|done]. by destruct (Signals (- code)).
Qed.

(** *** The inspection loop *)

(** One step of the loop, for a sentinel that is in the map and whose
    index is in range. *)
Lemma inspect_ready_cons s rest ctx index :
  sentinels ctx !! s = Some index →
  is_Some (processes ctx !! index) →
  let ctx2 :=
    process_join index
      {| error_queues := error_queues ctx;
         return_queues := return_queues ctx;
         processes := processes ctx;
         sentinels := delete s (sentinels ctx) |} in
  inspect_ready (s :: rest) ctx =
    if bool_decide (code_at ctx index ≠ Some 0)
    then (Return (Some index), ctx2)
    else inspect_ready rest ctx2.
Proof.
  intros Hs [p Hp]. simpl. rewrite Hs. simpl. rewrite Hp.
  by rewrite exitcode_after_join.
Qed.

(** Whatever the loop does, a process is left as it was or reaped, and
    the index it blames belongs to a worker with a non-zero code. *)
Lemma inspect_ready_inv ready ctx r ctx1 :
  inspect_ready ready ctx = (r, ctx1) →
  length (processes ctx1) = length (processes ctx) ∧
  (∀ j p1, processes ctx1 !! j = Some p1 →
     ∃ p, processes ctx !! j = Some p ∧ (p1 = p ∨ p1 = reap p)) ∧
  (∀ i, r = Return (Some i) → ∃ c, code_at ctx i = Some c ∧ c ≠ 0).
Proof.
  revert ctx. induction ready as [|s rest IH]; intros ctx H.
  - simpl in H. simplify_eq. split_and!; [done|by eauto|done].
  - destruct (sentinels ctx !! s) as [index|] eqn:Hs.
    2:{ simpl in H. rewrite Hs in H. simplify_eq.
        split_and!; [done|by eauto|done]. }
    destruct (processes ctx !! index) as [p|] eqn:Hp.
    2:{ simpl in H. rewrite Hs in H. simpl in H. rewrite Hp in H.
        simplify_eq. simpl. split_and!; [done|by eauto|done]. }
    rewrite (inspect_ready_cons _ _ _ index) in H by eauto.
    assert (Hstep : ∀ j p2,
      processes (process_join index
        {| error_queues := error_queues ctx;
           return_queues := return_queues ctx;
           processes := processes ctx;
           sentinels := delete s (sentinels ctx) |}) !! j = Some p2 →
      ∃ p0, processes ctx !! j = Some p0 ∧ (p2 = p0 ∨ p2 = reap p0)).
    { intros j p2. rewrite process_join_processes. simpl.
      rewrite list_lookup_alter. destruct (decide (index = j)) as [->|].
      - rewrite Hp. simpl. intros ?. simplify_eq. eauto.
      - eauto. }
    case_bool_decide as Hc.
    + simplify_eq. split_and!.
      * rewrite process_join_processes. simpl. apply length_alter.
      * done.
      * intros i ?. simplify_eq. unfold code_at in *. rewrite Hp in *.
        simpl in *. eexists. split; [done|]. congruence.
    + apply IH in H as (Hlen & Hps & Hr). split_and!.
      * rewrite Hlen, process_join_processes. simpl. apply length_alter.
      * intros j p1 H1. destruct (Hps _ _ H1) as (p2 & H2 & Hrel).
        destruct (Hstep _ _ H2) as (p0 & H0 & Hrel0).
        exists p0. split; [done|].
        destruct Hrel as [->| ->], Hrel0 as [->| ->]; auto.
      * intros i Hi. destruct (Hr i Hi) as (c & Hcode & Hne).
        rewrite code_at_process_join in Hcode. eauto.
Qed.

Lemma inspect_ready_returns ready ctx :
  well_formed ctx → wait_result ctx ready →
  ∃ r ctx1, inspect_ready ready ctx = (Return r, ctx1).
Proof.
  revert ctx. induction ready as [|s rest IH]; intros ctx Hwf [Hnd Hin].
  - simpl. eauto.
  - destruct (Hin s) as [index Hs]; [by left|].
    destruct (Hwf _ _ Hs) as [p Hp].
    rewrite (inspect_ready_cons _ _ _ index) by eauto.
    case_bool_decide; [by eauto|].
    apply NoDup_cons in Hnd as [Hs_rest Hnd].
    apply IH.
    + intros s' i'. rewrite process_join_sentinels. simpl.
      intros [_ Hs']%lookup_delete_Some.
      rewrite process_join_processes. simpl.
      rewrite list_lookup_alter. destruct (decide (index = i')) as [->|].
      * rewrite Hp. by eauto.
      * by eapply Hwf.
    + split; [done|]. intros s' Hs'.
      rewrite process_join_sentinels. simpl.
      rewrite lookup_delete_ne; [apply Hin; by right|].
      intros ->. done.
Qed.

(** *** What a wait tells about the pool *)

Lemma final_code_finish p : final_code (finish p) = final_code p.
Proof. destruct p as [s d []]; done. Qed.

Lemma child_exits_processes index ctx :
  processes (child_exits index ctx) = alter finish index (processes ctx).
Proof.
  unfold child_exits.
  destruct (processes ctx !! index) as [p|] eqn:E.
  - destruct (status p) eqn:S; simpl.
    + by apply (insert_as_alter finish _ _ _ p).
    + symmetry. apply alter_fixed. intros y Hy. simplify_eq.
      unfold finish. by rewrite S.
    + symmetry. apply alter_fixed. intros y Hy. simplify_eq.
      unfold finish. by rewrite S.
  - symmetry. apply alter_fixed. intros y Hy. congruence.
Qed.

Lemma child_exits_sentinels index ctx :
  sentinels (child_exits index ctx) = sentinels ctx.
Proof.
  unfold child_exits. destruct (processes ctx !! index) as [p|]; [|done].
  by destruct (status p).
Qed.

Lemma child_exits_code_at index ctx j :
  code_at (child_exits index ctx) j = code_at ctx j.
Proof.
  unfold code_at. rewrite child_exits_processes, list_lookup_alter.
  destruct (decide (index = j)) as [->|]; [|done].
  destruct (processes ctx !! j) as [p|]; [|done].
  simpl. by rewrite final_code_finish.
Qed.

Lemma child_exits_settled index ctx j :
  settled_error_queue (child_exits index ctx) j = settled_error_queue ctx j.
Proof.
  unfold settled_error_queue. rewrite child_exits_processes.
  unfold child_exits.
  destruct (processes ctx !! index) as [p|] eqn:Hp.
  2:{ rewrite list_lookup_alter. destruct (decide (index = j)) as [->|];
        [by rewrite Hp|done]. }
  destruct (status p) as [c|code|code] eqn:Hs; simpl.
  - rewrite !list_lookup_alter. destruct (decide (index = j)) as [->|];
      [|done].
    rewrite Hp. simpl. destruct (error_queues ctx !! j) as [q|]; [|done].
    simpl. unfold pending_errors, finish. rewrite Hs. simpl.
    by rewrite app_nil_r.
  - rewrite list_lookup_alter. destruct (decide (index = j)) as [->|];
      [|done].
    rewrite Hp. simpl. unfold finish. by rewrite Hs.
  - rewrite list_lookup_alter. destruct (decide (index = j)) as [->|];
      [|done].
    rewrite Hp. simpl. unfold finish. by rewrite Hs.
Qed.

Lemma wait_inv ready ctx :
  sentinels (wait ctx ready) = sentinels ctx ∧
  length (processes (wait ctx ready)) = length (processes ctx) ∧
  (∀ j p0, processes (wait ctx ready) !! j = Some p0 →
     ∃ p, processes ctx !! j = Some p ∧ (p0 = p ∨ p0 = finish p)) ∧
  (∀ j, code_at (wait ctx ready) j = code_at ctx j) ∧
  (∀ j, settled_error_queue (wait ctx ready) j = settled_error_queue ctx j).
Proof.
  revert ctx. induction ready as [|s rest IH]; intros ctx.
  - split_and!; [done|done|by eauto|done|done].
  - unfold wait. simpl. fold (wait (match sentinels ctx !! s with
                                    | Some index => child_exits index ctx
                                    | None => ctx
                                    end) rest).
    destruct (sentinels ctx !! s) as [index|]; [|apply IH].
    destruct (IH (child_exits index ctx)) as (Hs & Hl & Hp & Hc & Hq).
    split_and!.
    + by rewrite Hs, child_exits_sentinels.
    + by rewrite Hl, child_exits_processes, length_alter.
    + intros j p0 H0. destruct (Hp _ _ H0) as (p1 & H1 & Hrel).
      rewrite child_exits_processes, list_lookup_alter in H1.
      destruct (decide (index = j)) as [->|]; [|by eauto].
      destruct (processes ctx !! j) as [p|]; [|done].
      simpl in H1. simplify_eq. exists p. split; [done|].
      destruct Hrel as [->| ->]; [by right|].
      right. by destruct p as [s0 d []].
    + intros j. by rewrite Hc, child_exits_code_at.
    + intros j. by rewrite Hq, child_exits_settled.
Qed.

Lemma wait_well_formed ready ctx :
  well_formed ctx → well_formed (wait ctx ready).
Proof.
  intros Hwf s index. destruct (wait_inv ready ctx) as (Hs & Hl & _).
  rewrite Hs. intros H. apply Hwf in H.
  apply lookup_lt_is_Some. rewrite Hl. by apply lookup_lt_is_Some.
Qed.

Lemma wait_wait_result ready ctx :
  wait_result ctx ready → wait_result (wait ctx ready) ready.
Proof.
  intros [Hnd Hin]. split; [done|]. intros s Hs.
  destruct (wait_inv ready ctx) as (-> & _). by apply Hin.
Qed.

(** *** Workers that exit while the others are being started *)

Lemma exit_early_inv early ctx :
  sentinels (exit_early early ctx) = sentinels ctx ∧
  length (processes (exit_early early ctx)) = length (processes ctx) ∧
  length (error_queues (exit_early early ctx)) =
    length (error_queues ctx) ∧
  length (return_queues (exit_early early ctx)) =
    length (return_queues ctx) ∧
  (∀ j p0, processes (exit_early early ctx) !! j = Some p0 →
     ∃ p, processes ctx !! j = Some p ∧ (p0 = p ∨ p0 = finish p)) ∧
  (∀ j, settled_error_queue (exit_early early ctx) j =
        settled_error_queue ctx j).
Proof.
  revert ctx. induction early as [|i rest IH]; intros ctx.
  - split_and!; [done|done|done|done|by eauto|done].
  - unfold exit_early. simpl. fold (exit_early rest (child_exits i ctx)).
    destruct (IH (child_exits i ctx)) as (Hs & Hl & Hle & Hlr & Hp & Hq).
    assert (Hlen : length (error_queues (child_exits i ctx)) =
                     length (error_queues ctx) ∧
                   length (return_queues (child_exits i ctx)) =
                     length (return_queues ctx)).
    { unfold child_exits. destruct (processes ctx !! i) as [p|]; [|done].
      destruct (status p); simpl; [|done|done].
      by rewrite !length_alter. }
    destruct Hlen as [Hle0 Hlr0].
    split_and!.
    + by rewrite Hs, child_exits_sentinels.
    + by rewrite Hl, child_exits_processes, length_alter.
    + congruence.
    + congruence.
    + intros j p0 H0. destruct (Hp _ _ H0) as (p1 & H1 & Hrel).
      rewrite child_exits_processes, list_lookup_alter in H1.
      destruct (decide (i = j)) as [->|]; [|by eauto].
      destruct (processes ctx !! j) as [p|]; [|done].
      simpl in H1. simplify_eq. exists p. split; [done|].
      destruct Hrel as [->| ->]; [by right|].
      right. by destruct p as [s0 d []].
    + intros j. by rewrite Hq, child_exits_settled.
Qed.

Lemma exit_early_empty early ctx :
  processes ctx = [] → exit_early early ctx = ctx.
Proof.
  intros Hnil. induction early as [|i rest IH]; [done|].
  unfold exit_early. simpl. fold (exit_early rest (child_exits i ctx)).
  assert (child_exits i ctx = ctx) as ->; [|done].
  unfold child_exits. by rewrite Hnil.
Qed.

Lemma exit_early_sentinel_list early ctx :
  sentinel <$> processes (exit_early early ctx) =
    sentinel <$> processes ctx.
Proof.
  revert ctx. induction early as [|i rest IH]; intros ctx; [done|].
  unfold exit_early. simpl. fold (exit_early rest (child_exits i ctx)).
  rewrite IH, child_exits_processes.
  rewrite (list_fmap_alter sentinel finish id).
  - by apply list_alter_id.
  - apply Forall_true. by intros [s d []].
Qed.

(** *** Which worker a round blames *)

Lemma process_join_error_queue_ne j i ctx :
  j ≠ i →
  error_queues (process_join j ctx) !! i = error_queues ctx !! i.
Proof.
  intros Hne. unfold process_join.
  destruct (processes ctx !! j) as [p|]; [|done].
  destruct (status p); simpl; [|done|done].
  by rewrite list_lookup_alter_ne.
Qed.

Lemma process_join_error_queue_reaped i ctx :
  (∀ p, processes ctx !! i = Some p → is_reaped p = true) →
  error_queues (process_join i ctx) = error_queues ctx.
Proof.
  intros Hr. unfold process_join.
  destruct (processes ctx !! i) as [p|] eqn:Hp; [|done].
  specialize (Hr p eq_refl). unfold is_reaped in Hr.
  by destruct (status p).
Qed.

Lemma process_join_error_queue_eq i ctx :
  is_Some (processes ctx !! i) →
  error_queues (process_join i ctx) !! i = settled_error_queue ctx i.
Proof.
  intros [p Hp]. unfold process_join, settled_error_queue, pending_errors.
  rewrite Hp. destruct (status p); simpl.
  - rewrite list_lookup_alter_eq. by destruct (error_queues ctx !! i).
  - destruct (error_queues ctx !! i); [|done]. by rewrite app_nil_r.
  - destruct (error_queues ctx !! i); [|done]. by rewrite app_nil_r.
Qed.

Lemma drain_step_error_queue j i ctx :
  (∀ p, processes ctx !! i = Some p → is_reaped p = true) →
  error_queues (drain_step ctx j) !! i = error_queues ctx !! i.
Proof.
  intros Hr. unfold drain_step.
  destruct (processes ctx !! j) as [p|] eqn:Hp; [|done].
  destruct (decide (j = i)) as [->|Hne].
  - assert (Ha : is_alive p = false).
    { specialize (Hr p Hp). unfold is_reaped, is_alive in *.
      by destruct (status p). }
    rewrite Ha. by rewrite process_join_error_queue_reaped.
  - rewrite process_join_error_queue_ne by done. by destruct (is_alive p).
Qed.

Lemma drained_reaped p : is_reaped p = true → drained p = p.
Proof. destruct p as [s d []]; done. Qed.

Lemma foldl_drain_step_error_queue idx i ctx :
  (∀ p, processes ctx !! i = Some p → is_reaped p = true) →
  error_queues (foldl drain_step ctx idx) !! i = error_queues ctx !! i.
Proof.
  revert ctx. induction idx as [|j idx IH]; intros ctx Hr; [done|].
  simpl. rewrite IH; [by apply drain_step_error_queue|].
  intros p. rewrite drain_step_processes, list_lookup_alter.
  destruct (decide (j = i)) as [->|]; [|by apply Hr].
  destruct (processes ctx !! i) as [p0|] eqn:Hp0; [|done].
  simpl. intros ?. simplify_eq. rewrite drained_reaped; by apply Hr.
Qed.

Lemma throw_exception_report ctx i q p c :
  error_queues ctx !! i = Some q →
  processes ctx !! i = Some p →
  exitcode p = Some c →
  (_throw_exception ctx i).1 = failure_report i q c.
Proof.
  intros Hq Hp Hc. unfold _throw_exception, failure_report.
  rewrite Hq. destruct q as [|t q]; [|done].
  rewrite Hp, Hc. destruct (c <? 0); [|done].
  by destruct (Signals (- c)).
Qed.

Lemma throw_exception_sentinels ctx i :
  sentinels (_throw_exception ctx i).2 = sentinels ctx.
Proof.
  unfold _throw_exception.
  destruct (error_queues ctx !! i) as [[|t q]|]; [|done|done].
  destruct (processes ctx !! i) as [p|]; [|done].
  destruct (exitcode p) as [code|]; [|done].
  destruct (code <? 0); [|done]. by destruct (Signals (- code)).
Qed.

Lemma foldl_drain_step_sentinels idx ctx :
  sentinels (foldl drain_step ctx idx) = sentinels ctx.
Proof.
  revert ctx. induction idx as [|j idx IH]; intros ctx; [done|].
  simpl. rewrite IH. unfold drain_step.
  destruct (processes ctx !! j) as [p|]; [|done].
  rewrite process_join_sentinels. by destruct (is_alive p).
Qed.

Lemma inspect_ready_first_failure pre s post i ctx :
  NoDup (pre ++ [s]) →
  (∀ s', s' ∈ pre →
     ∃ j, sentinels ctx !! s' = Some j ∧ code_at ctx j = Some 0) →
  sentinels ctx !! s = Some i →
  (∃ c, code_at ctx i = Some c ∧ c ≠ 0) →
  ∃ ctx1,
    inspect_ready (pre ++ s :: post) ctx = (Return (Some i), ctx1) ∧
    error_queues ctx1 !! i = settled_error_queue ctx i ∧
    (∃ p, processes ctx !! i = Some p ∧ processes ctx1 !! i = Some (reap p)) ∧
    (∀ k, sentinels ctx1 !! k =
          if decide (k ∈ pre ++ [s]) then None else sentinels ctx !! k).
Proof.
  revert ctx. induction pre as [|s' pre IH]; intros ctx Hnd Hpre Hs Hc.
  - destruct Hc as (c & Hc & Hne).
    assert (Hp : is_Some (processes ctx !! i)).
    { unfold code_at in Hc. by destruct (processes ctx !! i); eauto. }
    cbn [app]. rewrite (inspect_ready_cons _ _ _ i) by done.
    rewrite bool_decide_true by (rewrite Hc; congruence).
    eexists. split; [done|]. split_and!.
    + by rewrite process_join_error_queue_eq.
    + destruct Hp as [p Hp]. exists p. split; [done|].
      rewrite process_join_processes. simpl.
      by rewrite list_lookup_alter_eq, Hp.
    + intros k. rewrite process_join_sentinels. simpl.
      destruct (decide (k = s)) as [->|Hk].
      * rewrite lookup_delete_eq. by rewrite decide_True by list_mem.
      * rewrite lookup_delete_ne by done.
        by rewrite decide_False by list_mem.
  - destruct (Hpre s') as (j & Hs' & Hj); [by left|].
    assert (Hp : is_Some (processes ctx !! j)).
    { unfold code_at in Hj. by destruct (processes ctx !! j); eauto. }
    assert (Hji : j ≠ i).
    { intros ->. destruct Hc as (c & Hc & Hne). congruence. }
    simpl in Hnd. apply NoDup_cons in Hnd as [Hfresh Hnd].
    cbn [app]. rewrite (inspect_ready_cons _ _ _ j) by done.
    rewrite bool_decide_false by (rewrite Hj; auto).
    set (ctx2 := process_join j _).
    destruct (IH ctx2) as (ctx1 & Hrun & Hq & Hproc & Hsent).
    + done.
    + intros s'' Hin. destruct (Hpre s'') as (j' & ? & ?); [by right|].
      exists j'. unfold ctx2.
      rewrite process_join_sentinels, code_at_process_join. simpl.
      split; [|done]. rewrite lookup_delete_ne; [done|].
      intros ->. apply Hfresh. list_mem.
    + unfold ctx2. rewrite process_join_sentinels. simpl.
      rewrite lookup_delete_ne; [done|].
      intros ->. apply Hfresh. list_mem.
    + unfold ctx2. by setoid_rewrite code_at_process_join.
    + assert (Hsame : processes ctx2 !! i = processes ctx !! i).
      { unfold ctx2. rewrite process_join_processes. simpl.
        by rewrite list_lookup_alter_ne. }
      exists ctx1. split; [done|]. split_and!.
      * rewrite Hq. unfold settled_error_queue. rewrite Hsame.
        unfold ctx2. by rewrite process_join_error_queue_ne.
      * by rewrite <- Hsame.
      * intros k. rewrite Hsent. unfold ctx2.
        rewrite process_join_sentinels. simpl.
        destruct (decide (k = s')) as [->|Hk].
        -- rewrite lookup_delete_eq.
           rewrite (decide_True (P := s' ∈ s' :: pre ++ [s])) by list_mem.
           by case_decide.
        -- rewrite lookup_delete_ne by done.
           destruct (decide (k ∈ pre ++ [s])).
           ++ by rewrite decide_True by list_mem.
           ++ by rewrite decide_False by list_mem.
Qed.

Lemma sentinels_not_empty ctx s i :
  sentinels ctx !! s = Some i →
  bool_decide (size (sentinels ctx) = 0%nat) = false.
Proof.
  intros Hs. apply bool_decide_eq_false. intros Hsize.
  apply map_size_empty_iff in Hsize. rewrite Hsize in Hs.
  by rewrite lookup_empty in Hs.
Qed.

(** C2, as the code has it.  In one round of [join], let the workers that
    [wait] reports before [s] all have exit code 0 and let the worker [i]
    of [s] have a non-zero code [c].  Then the round raises the failure
    of worker [i], built from [i], its error queue and its code, and from
    nothing else; every process of the pool, inspected or not, has been
    waited for; and exactly the sentinels inspected so far have left the
    live set, so those of the rest of the batch are still in it. *)
Theorem join_reports_first_failure ctx pre s post i c q :
  NoDup (pre ++ [s]) →
  (∀ s', s' ∈ pre →
     ∃ j, sentinels ctx !! s' = Some j ∧ code_at ctx j = Some 0) →
  sentinels ctx !! s = Some i →
  code_at ctx i = Some c →
  c ≠ 0 →
  settled_error_queue ctx i = Some q →
  ∃ ctx',
    join ctx (pre ++ s :: post) = (Raise (failure_report i q c), ctx') ∧
    Forall (λ p, is_alive p = false ∧ is_reaped p = true) (processes ctx') ∧
    (∀ k, sentinels ctx' !! k =
          if decide (k ∈ pre ++ [s]) then None else sentinels ctx !! k).
Proof.
  intros Hnd Hpre Hs Hc Hne Hq.
  destruct (wait_inv (pre ++ s :: post) ctx) as (Hs0 & _ & _ & Hc0 & Hq0).
  destruct (inspect_ready_first_failure pre s post i
              (wait ctx (pre ++ s :: post)) Hnd)
    as (ctx1 & Hrun & Hq1 & (p & Hp & Hp1) & Hsent).
  { intros s' Hin. destruct (Hpre s' Hin) as (j & ? & ?).
    exists j. by rewrite Hs0, Hc0. }
  { by rewrite Hs0. }
  { rewrite Hc0. by eauto. }
  rewrite Hq0 in Hq1. rewrite <- Hc0 in Hc.
  unfold join. rewrite (sentinels_not_empty _ _ _ Hs), Hrun.
  eexists. split_and!.
  - f_equal. f_equal. simpl.
    apply (throw_exception_report _ _ _ (reap p)).
    + unfold drain. rewrite foldl_drain_step_error_queue; [congruence|].
      intros p0 ?. by simplify_eq.
    + by rewrite drain_processes, list_lookup_fmap, Hp1.
    + rewrite exitcode_reap. unfold code_at in Hc. rewrite Hp in Hc.
      by simplify_eq/=.
  - simpl. rewrite throw_exception_processes. apply drain_all_reaped.
  - intros k. simpl. rewrite throw_exception_sentinels.
    unfold drain. by rewrite foldl_drain_step_sentinels, Hsent, Hs0.
Qed.

(** *** Joining a drained pool *)

(** C8. When no sentinel is left in a pool, and so in particular in the
    pool that a call of [join] returning [True] has left, every call of
    [join] returns [True] and leaves the pool as it is, whatever a wait
    would have reported: no wait is made and nothing is raised. *)
Theorem join_drained_idempotent ctx :
  (size (sentinels ctx) = 0%nat ∨
   ∃ ctx0 ready0, join ctx0 ready0 = (Return true, ctx)) →
  ∀ ready, join ctx ready = (Return true, ctx).
Proof.
  intros H.
  assert (Hsize : size (sentinels ctx) = 0%nat).
  { destruct H as [H|(ctx0 & ready0 & H)]; [done|].
    unfold join in H. case_bool_decide as H0; [by simplify_eq|].
    destruct (inspect_ready ready0 (wait ctx0 ready0)) as [[[i|]|e] ctx1]; simplify_eq.
    match goal with
    | Hb : bool_decide _ = true |- _ => by apply bool_decide_eq_true in Hb
    end. }
  intros ready. unfold join. by rewrite bool_decide_true.
Qed.

(** *** Interrupted workers *)

Lemma alter_app_nil_lookup {A} (l : list (list A)) (i j : nat) :
  alter (λ q, q ++ []) i l !! j = l !! j.
Proof.
  rewrite list_lookup_alter. destruct (decide (i = j)) as [->|]; [|done].
  destruct (l !! j); [|done]. simpl. by rewrite app_nil_r.
Qed.

(** C9. A worker whose user function raises [KeyboardInterrupt] exits
    with code 0 and puts nothing on either queue.  In any pool that holds
    it as a running process, no round of [join] blames it, and the round
    in which [wait] reports it alone returns without raising: the worker
    is reaped with code 0 and its result queue is as empty as before. *)
Theorem interrupted_worker_is_success (func : user_func) args env_dict
    inherited :
  func args (_set_trainer_env env_dict (_remove_risky_env inherited)) =
    Raises KeyboardInterrupt →
  let c := run_worker func args env_dict inherited in
  exit_status c = 0 ∧ writes_return c = [] ∧ writes_error c = [] ∧
  ∀ ctx index p,
    processes ctx !! index = Some p →
    status p = Running c →
    (∀ ready j ctx1,
       inspect_ready ready ctx = (Return (Some j), ctx1) → j ≠ index) ∧
    (∀ s, sentinels ctx !! s = Some index →
       ∃ b ctx',
         join ctx [s] = (Return b, ctx') ∧
         processes ctx' !! index = Some (set_status p (Reaped 0)) ∧
         return_queues ctx' !! index = return_queues ctx !! index ∧
         error_queues ctx' !! index = error_queues ctx !! index).
Proof.
  intros Hfunc c.
  assert (Hc : exit_status c = 0 ∧ writes_return c = [] ∧ writes_error c = []).
  { unfold c, run_worker, _func_wrapper. simpl. by rewrite Hfunc. }
  clearbody c.
  destruct Hc as (Hexit & Hret & Herr). split_and!; try done.
  intros ctx index p Hp Hstatus.
  assert (Hcode : code_at ctx index = Some 0).
  { unfold code_at, final_code. rewrite Hp. simpl.
    by rewrite Hstatus, Hexit. }
  split.
  - intros ready j ctx1 Hrun ->.
    destruct (inspect_ready_inv _ _ _ _ Hrun) as (_ & _ & Hr).
    destruct (Hr index eq_refl) as (c' & ? & ?). congruence.
  - intros s Hs. unfold join.
    rewrite (sentinels_not_empty _ _ _ Hs).
    assert (Hlt : (index < length (processes ctx))%nat)
      by (by eapply lookup_lt_Some).
    assert (Hw : wait ctx [s] =
      {| error_queues := alter (λ q, q ++ []) index (error_queues ctx);
         return_queues := alter (λ q, q ++ []) index (return_queues ctx);
         processes := <[index := set_status p (Exited 0)]> (processes ctx);
         sentinels := sentinels ctx |}).
    { unfold wait. simpl. rewrite Hs. unfold child_exits, finish.
      by rewrite Hp, Hstatus, Hexit, Hret, Herr. }
    rewrite Hw.
    rewrite (inspect_ready_cons _ _ _ index); simpl;
      [|done|by rewrite list_lookup_insert_eq; eauto].
    rewrite bool_decide_false.
    2:{ unfold code_at. simpl. rewrite list_lookup_insert_eq by done.
        simpl. auto. }
    simpl. eexists _, _. split; [done|].
    unfold process_join. simpl.
    rewrite list_lookup_insert_eq by done. simpl.
    rewrite !alter_app_nil_lookup.
    split_and!; try done.
    rewrite list_lookup_insert_eq; [done|].
    by rewrite length_insert.
Qed.

(** *** The message for a worker that left no diagnostic *)

(** C3.  With an empty error queue and an exit code that is not negative,
    [_throw_exception] does not raise the failure the format string
    describes: applying [&] to a string and a tuple raises [TypeError],
    whose message has neither the index nor the exit code. *)
Theorem throw_exception_exit_code_branch ctx i p code :
  error_queues ctx !! i = Some [] →
  processes ctx !! i = Some p →
  exitcode p = Some code →
  0 ≤ code →
  (_throw_exception ctx i).1 =
    TypeError "unsupported operand type(s) for &: 'str' and 'tuple'" ∧
  is_WorkerFailure (_throw_exception ctx i).1 = false ∧
  (_throw_exception ctx i).1 ≠ Exception (exit_code_message i code).
Proof.
  intros Hq Hp Hc Hcode. unfold _throw_exception.
  rewrite Hq, Hp, Hc.
  assert ((code <? 0) = false) as -> by lia. done.
Qed.

(** X19. With an empty error queue and a negative exit code whose signal
    has a name, the failure names the index and the signal. *)
Lemma throw_exception_signal_branch ctx i p code name :
  error_queues ctx !! i = Some [] →
  processes ctx !! i = Some p →
  exitcode p = Some code →
  code < 0 →
  Signals (- code) = Some name →
  (_throw_exception ctx i).1 = Exception (signal_message i name) ∧
  names (signal_message i name) (pretty i) ∧
  names (signal_message i name) name.
Proof.
  intros Hq Hp Hc Hcode Hname. unfold _throw_exception.
  rewrite Hq, Hp, Hc, Hname.
  assert ((code <? 0) = true) as -> by lia. split_and!; [done| |].
  - apply (names_middle (pretty i) "Process ").
  - unfold signal_message, names.
    do 3 apply occurs_skip. apply occurs_prefix, prefix_append.
Qed.

(** *** Zero workers *)

Lemma default_nprocs_verbatim amb nprocs :
  nprocs ≠ -1 → default_nprocs amb nprocs = nprocs.
Proof.
  intros H. unfold default_nprocs.
  by assert ((nprocs =? -1) = false) as -> by lia.
Qed.

(** C10. Every worker count other than -1 is used as it is given.  With
    [nprocs = 0], on a supported interpreter and with options that pass
    validation, planning and the choice of the start method, [spawn]
    starts no process and returns a pool without processes, whether it
    joins or not and whatever the waits would report; [join] on that pool
    returns [True] at once. *)
Theorem spawn_zero_workers amb func args join_flag daemon_flag options
    early schedule pl :
  version_ge_3_4 (version_info amb) = true →
  _options_valid_check options = Return tt →
  _get_subprocess_env_list amb 0 options = Return pl →
  is_raise (get_context (start_method_of options)) = false →
  (∀ nprocs, nprocs ≠ -1 → default_nprocs amb nprocs = nprocs) ∧
  ∃ ctx,
    spawn amb func args 0 join_flag daemon_flag options early schedule =
      Some {| result := Return ctx; started := [] |} ∧
    processes ctx = [] ∧
    ∀ ready, join ctx ready = (Return true, ctx).
Proof.
  intros Hv Hopt Hplan Hctx.
  split; [intros; by apply default_nprocs_verbatim|].
  exists {| error_queues := []; return_queues := []; processes := [];
            sentinels := ∅ |}.
  split_and!; [|done|done].
  unfold spawn. rewrite (py_supported_check_ok _ Hv), Hopt.
  rewrite default_nprocs_verbatim by done. rewrite Hplan.
  destruct (get_context (start_method_of options)); [|done].
  simpl. rewrite exit_early_empty by done.
  unfold MultiprocessContext__init__.
  rewrite (py_supported_check_ok _ Hv). simpl.
  destruct join_flag; simpl; [|done].
  by destruct schedule.
Qed.

(** *** Splitting and joining at commas *)

Lemma split_comma_not_nil s : split_comma s ≠ [].
Proof.
  induction s as [|a s IH]; simpl; [done|].
  destruct (Ascii.eqb a comma); [done|].
  by destruct (split_comma s).
Qed.








(** *** Planning the device selection *)

Lemma index_each_from devices (k m : nat) :
  (k + m ≤ length devices)%nat →
  index_each devices (seqZ (Z.of_nat k) (Z.of_nat m)) =
    Return (take m (drop k devices)).
Proof.
  revert k. induction m as [|m IH]; intros k Hlen.
  - by rewrite seqZ_nil by lia.
  - rewrite seqZ_cons by lia. simpl. rewrite Nat2Z.id.
    destruct (lookup_lt_is_Some_2 devices k) as [d Hd]; [lia|].
    rewrite Hd.
    replace (Z.succ (Z.of_nat k)) with (Z.of_nat (S k)) by lia.
    replace (Z.pred (Z.of_nat (S m))) with (Z.of_nat m) by lia.
    rewrite IH by lia. simpl.
    by rewrite (drop_S _ _ _ Hd).
Qed.

Lemma index_each_range devices nprocs :
  nprocs ≤ Z.of_nat (length devices) →
  index_each devices (seqZ 0 nprocs) =
    Return (take (Z.to_nat nprocs) devices).
Proof.
  intros Hlen. destruct (decide (nprocs ≤ 0)) as [Hn|Hn].
  - rewrite seqZ_nil by done.
    by replace (Z.to_nat nprocs) with 0%nat by lia.
  - replace nprocs with (Z.of_nat (Z.to_nat nprocs)) at 1 by lia.
    apply (index_each_from devices 0). lia.
Qed.

Lemma check_cards_offending cards devices :
  (∃ id, id ∈ cards ∧ id ∉ devices) →
  ∃ pre id post,
    cards = pre ++ id :: post ∧
    Forall (λ x, x ∈ devices) pre ∧
    (id ∉ devices) ∧
    check_cards cards devices =
      Raise (ValueError (card_not_found_message id devices)).
Proof.
  induction cards as [|c rest IH]; intros (id & Hin & Hout).
  - inversion Hin.
  - simpl. unfold str_in. case_bool_decide as Hc; simpl.
    + destruct IH as (pre & id' & post & -> & Hpre & ? & ?).
      { exists id. split; [|done].
        apply elem_of_cons in Hin as [->|]; [contradiction|done]. }
      exists (c :: pre), id', post.
      split_and!; [done|by constructor|done|done].
    + exists [], c, rest. split_and!; [done|by constructor|done|done].
Qed.

Lemma card_not_found_message_names id devices :
  names (card_not_found_message id devices) id.
Proof. apply names_middle. Qed.

Lemma plan_selected_gpus_default amb nprocs options :
  dict_get options "selected_gpus" PyNone = PyNone →
  plan_selected_gpus amb nprocs options =
    if Z.of_nat (length (env_devices_list amb)) <? nprocs
    then Raise (RuntimeError
                  (too_few_devices_message (length (env_devices_list amb))
                     nprocs))
    else Return (PyStr (join_comma
                          (take (Z.to_nat nprocs) (env_devices_list amb)))).
Proof.
  intros Hsel. unfold plan_selected_gpus. rewrite Hsel.
  destruct (Z.ltb_spec (Z.of_nat (length (env_devices_list amb))) nprocs);
    [done|].
  by rewrite index_each_range.
Qed.


(** C6, as the code has it.  Let the options select devices and let one
    selected id not be visible.  Then planning raises a configuration
    error and [spawn] starts nothing.  Unless the options give
    [cluster_node_ips] without [node_ip], the error is the [ValueError]
    whose message names the first selected id, in the order of the
    selection, that is not visible. *)
Theorem plan_rejects_invisible_device amb nprocs options s :
  dict_get options "selected_gpus" PyNone = PyStr s →
  (∃ id, id ∈ split_comma s ∧ id ∉ env_devices_list amb) →
  (∃ e, _get_subprocess_env_list amb nprocs options = Raise e ∧
        is_ConfigurationError e = true) ∧
  (∀ func args n join_flag daemon_flag early schedule,
     ∃ e, spawn amb func args n join_flag daemon_flag options early schedule =
            Some {| result := Raise e; started := [] |}) ∧
  (node_ip_missing options = false →
   ∃ pre id post e,
     split_comma s = pre ++ id :: post ∧
     Forall (λ x, x ∈ env_devices_list amb) pre ∧
     (id ∉ env_devices_list amb) ∧
     _get_subprocess_env_list amb nprocs options = Raise e ∧
     e = ValueError (card_not_found_message id (env_devices_list amb)) ∧
     is_ConfigurationError e = true ∧
     names (exn_message e) id).
Proof.
  intros Hsel Hbad.
  destruct (check_cards_offending _ _ Hbad)
    as (pre & id & post & Hsplit & Hpre & Hout & Hcheck).
  assert (Hplan : ∀ n, node_ip_missing options = false →
    _get_subprocess_env_list amb n options =
      Raise (ValueError (card_not_found_message id (env_devices_list amb)))).
  { intros n Hip. unfold _get_subprocess_env_list, plan_selected_gpus.
    by rewrite Hip, Hsel, Hcheck. }
  assert (Hraise : ∀ n, ∃ e,
    _get_subprocess_env_list amb n options = Raise e ∧
    is_ConfigurationError e = true).
  { intros n. destruct (node_ip_missing options) eqn:Hip.
    - unfold _get_subprocess_env_list. rewrite Hip. by eauto.
    - rewrite Hplan by done. by eauto. }
  split_and!.
  - apply Hraise.
  - intros func args n join_flag daemon_flag early schedule.
    destruct (Hraise (default_nprocs amb n)) as (e & He & _).
    by eapply spawn_planning_failure.
  - intros Hip. eexists pre, id, post, _.
    split_and!; [done|done|done|by apply Hplan|done|done|].
    apply card_not_found_message_names.
Qed.

(** *** Pools as [MultiprocessContext__init__] builds them *)

Lemma foldl_insert_sentinel (l : list (nat * Process)) (m : gmap Z nat) s i :
  foldl (λ m ip, <[sentinel ip.2 := ip.1]> m) m l !! s = Some i →
  m !! s = Some i ∨ ∃ p, (i, p) ∈ l.
Proof.
  revert m. induction l as [|[k p] l IH]; intros m H; [by left|].
  simpl in H. apply IH in H as [H|[p' H]].
  - apply lookup_insert_Some in H as [[_ <-]|[_ H]].
    + right. exists p. by left.
    + by left.
  - right. exists p'. by right.
Qed.

Lemma make_sentinels_in_range ps s i :
  make_sentinels ps !! s = Some i → is_Some (ps !! i).
Proof.
  intros H. apply foldl_insert_sentinel in H as [H|[p H]].
  - by rewrite lookup_empty in H.
  - apply elem_of_lookup_imap in H as (k & y & Heq & Hy).
    simplify_eq. by eauto.
Qed.

Lemma init_well_formed amb ps eqs rqs ctx :
  MultiprocessContext__init__ amb ps eqs rqs = Return ctx →
  well_formed ctx.
Proof.
  unfold MultiprocessContext__init__.
  destruct (_py_supported_check amb); [|done].
  simpl. intros ?. simplify_eq. intros s i. simpl.
  apply make_sentinels_in_range.
Qed.

Lemma pool_of_well_formed ps : well_formed (pool_of ps).
Proof. intros s i. simpl. apply make_sentinels_in_range. Qed.

(** ** More about the module *)

(** *** Option validation *)

(** X1. [_options_valid_check] accepts an option dictionary exactly when
    every key of it is a supported option. *)
Theorem options_valid_check_accepts_exactly (options : kwargs) :
  _options_valid_check options = Return tt ↔
  Forall (λ key, key ∈ supported_options) (options.*1).
Proof.
  split; [|apply options_valid_check_known].
  induction options as [|[k v] rest IH]; simpl; [by constructor|].
  unfold str_in. case_bool_decide as Hk; [|done].
  intros H. constructor; [done|by apply IH].
Qed.

(** *** The environment of a worker *)

Lemma set_trainer_env_union (env_dict env : gmap string string) :
  _set_trainer_env env_dict env = env_dict ∪ env.
Proof.
  unfold _set_trainer_env.
  apply (map_fold_weak_ind (λ r m, r = m ∪ env)).
  - by rewrite (left_id_L ∅ (∪)).
  - intros k v m r _ ->. by rewrite insert_union_l.
Qed.

(** X2. The environment the wrapper leaves in the child, in which it has
    called the user function, gives every variable of the planned record
    its planned value; of the other variables, [http_proxy] and
    [https_proxy] are unset and the rest is as inherited. *)
Theorem func_wrapper_environment (func : user_func) args env_dict (c : child)
    (k : string) :
  environ (_func_wrapper func args env_dict c).1 !! k =
    match env_dict !! k with
    | Some v => Some v
    | None =>
        if bool_decide (k = "http_proxy"%string ∨ k = "https_proxy"%string)
        then None
        else environ c !! k
    end.
Proof.
  assert (Henv : environ (_func_wrapper func args env_dict c).1 =
                 _set_trainer_env env_dict (_remove_risky_env (environ c))).
  { unfold _func_wrapper. by destruct (func args _) as [v|tb|[| | |]]. }
  rewrite Henv, set_trainer_env_union, lookup_union.
  destruct (env_dict !! k) as [v|] eqn:Hk.
  - by destruct (_remove_risky_env (environ c) !! k).
  - rewrite (left_id None _). unfold _remove_risky_env.
    case_bool_decide as Hp.
    + destruct Hp as [->| ->].
      * rewrite lookup_delete_ne by done. apply lookup_delete_eq.
      * apply lookup_delete_eq.
    + rewrite !lookup_delete_ne by (intros E; apply Hp; rewrite <- E; auto). done.
Qed.

(** *** Draining *)

Lemma context_eq (a b : MultiprocessContext) :
  error_queues a = error_queues b → return_queues a = return_queues b →
  processes a = processes b → sentinels a = sentinels b → a = b.
Proof. destruct a, b. simpl. by intros -> -> -> ->. Qed.

Lemma process_join_queues_exited i ctx p :
  processes ctx !! i = Some p → is_alive p = false →
  error_queues (process_join i ctx) = error_queues ctx ∧
  return_queues (process_join i ctx) = return_queues ctx.
Proof.
  intros Hp Ha. unfold process_join. rewrite Hp.
  unfold is_alive in Ha. by destruct (status p).
Qed.

Lemma drain_step_queues ctx j :
  error_queues (drain_step ctx j) = error_queues ctx ∧
  return_queues (drain_step ctx j) = return_queues ctx.
Proof.
  unfold drain_step.
  destruct (processes ctx !! j) as [p|] eqn:Hp; [|done].
  destruct (is_alive p) eqn:Ha.
  - apply (process_join_queues_exited j
             (set_processes ctx (<[j := terminate p]> (processes ctx)))
             (terminate p)).
    + simpl. apply list_lookup_insert_eq. by eapply lookup_lt_Some.
    + unfold terminate, is_alive in *. by destruct (status p).
  - by apply (process_join_queues_exited j _ p).
Qed.

Lemma foldl_drain_step_queues idx ctx :
  error_queues (foldl drain_step ctx idx) = error_queues ctx ∧
  return_queues (foldl drain_step ctx idx) = return_queues ctx.
Proof.
  revert ctx. induction idx as [|j idx IH]; intros ctx; [done|].
  simpl. destruct (IH (drain_step ctx j)) as [-> ->].
  apply drain_step_queues.
Qed.

(** X3. The draining loop changes the processes and nothing else: every
    process that was alive is terminated and reaped with the code of
    SIGTERM, every other process is reaped with its own code, and neither a
    queue nor the live set is touched. *)
Theorem drain_terminates_and_reaps ctx :
  drain ctx = set_processes ctx (drained <$> processes ctx) ∧
  ∀ j p, processes ctx !! j = Some p →
    processes (drain ctx) !! j =
      Some (set_status p (Reaped (if is_alive p then - SIGTERM
                                  else final_code p))).
Proof.
  split.
  - apply context_eq; simpl.
    + apply foldl_drain_step_queues.
    + apply foldl_drain_step_queues.
    + apply drain_processes.
    + apply foldl_drain_step_sentinels.
  - intros j p Hp. rewrite drain_processes, list_lookup_fmap, Hp. simpl.
    f_equal. by destruct p as [s d [c|code|code]].
Qed.

(** *** The failure with a diagnostic *)

Lemma append_assoc (a b c : string) : a +:+ b +:+ c = (a +:+ b) +:+ c.
Proof.
  induction a as [|x a IH]; [done|].
  change (String x (a +:+ b +:+ c) = String x ((a +:+ b) +:+ c)).
  by rewrite IH.
Qed.

Lemma prefix_self (k : string) : String.prefix k k = true.
Proof.
  induction k as [|a k IH]; [done|].
  simpl. by destruct (ascii_dec a a).
Qed.

(** X5. When the error queue of the failing worker holds a diagnostic,
    [_throw_exception] raises an [Exception] whose message is the frame
    naming the worker's index followed by the whole diagnostic; it takes
    that one item off the worker's queue and changes nothing else. *)
Theorem throw_exception_with_diagnostic ctx i trace rest :
  error_queues ctx !! i = Some (trace :: rest) →
  (_throw_exception ctx i).1 =
    Exception (framed_trace_message i +:+ trace) ∧
  names (exn_message (_throw_exception ctx i).1) (pretty i) ∧
  names (exn_message (_throw_exception ctx i).1) trace ∧
  error_queues (_throw_exception ctx i).2 = <[i := rest]> (error_queues ctx) ∧
  return_queues (_throw_exception ctx i).2 = return_queues ctx ∧
  processes (_throw_exception ctx i).2 = processes ctx ∧
  sentinels (_throw_exception ctx i).2 = sentinels ctx.
Proof.
  intros Hq. unfold _throw_exception. rewrite Hq. simpl.
  split_and!; try done.
  - unfold names, framed_trace_message.
    rewrite <- !append_assoc.
    do 4 apply occurs_skip. apply names_middle.
  - unfold names. apply occurs_skip, occurs_prefix, prefix_self.
Qed.

(** *** The sentinel map *)

Lemma make_sentinels_snoc ps p :
  make_sentinels (ps ++ [p]) =
    <[sentinel p := length ps]> (make_sentinels ps).
Proof.
  unfold make_sentinels. rewrite imap_app, foldl_app. simpl.
  by rewrite Nat.add_0_r.
Qed.

Lemma make_sentinels_lookup_iff (ps : list Process) :
  NoDup (sentinel <$> ps) →
  (∀ s i, make_sentinels ps !! s = Some i ↔
          ∃ p, ps !! i = Some p ∧ sentinel p = s) ∧
  size (make_sentinels ps) = length ps.
Proof.
  induction ps as [|p ps IH] using rev_ind; intros Hnd.
  - split; [|done]. intros s i. unfold make_sentinels. simpl.
    rewrite lookup_empty. split; [done|]. by intros (p & ? & _).
  - rewrite fmap_app in Hnd. apply NoDup_app in Hnd as (Hnd & Hfresh & _).
    destruct (IH Hnd) as [Hiff Hsize].
    assert (Hnew : make_sentinels ps !! sentinel p = None).
    { destruct (make_sentinels ps !! sentinel p) as [i|] eqn:E; [|done].
      apply Hiff in E as (p' & Hp' & Hs). exfalso.
      apply (Hfresh (sentinel p)); [|by left].
      rewrite <- Hs. apply list_elem_of_fmap. exists p'. split; [done|].
      by eapply list_elem_of_lookup_2. }
    rewrite make_sentinels_snoc. split.
    + intros s i. rewrite lookup_insert_Some, Hiff. split.
      * intros [[<- <-]|[Hne (p' & Hp' & Hs)]].
        -- exists p. split; [|done]. by apply list_lookup_middle.
        -- exists p'. split; [|done]. by apply lookup_app_l_Some.
      * intros (p' & Hp' & Hs).
        apply lookup_app_Some in Hp' as [Hp'|[Hlen Hp']].
        -- right. split; [|by eauto]. intros Heq.
           apply (Hfresh (sentinel p)); [|by left].
           rewrite Heq, <- Hs. apply list_elem_of_fmap.
           exists p'. split; [done|]. by eapply list_elem_of_lookup_2.
        -- left. destruct (i - length ps)%nat as [|n] eqn:En; [|done].
           simpl in Hp'. simplify_eq. split; [done|]. lia.
    + rewrite map_size_insert_None by done.
      rewrite Hsize, length_app. simpl. lia.
Qed.

(** X6. A pool built by [MultiprocessContext] from processes with pairwise
    distinct sentinels keeps the lists it was given, and its sentinel map
    leads from a sentinel to an index exactly when the process at that
    index has that sentinel; the map has one entry per process. *)
Theorem init_finds_each_process amb ps eqs rqs ctx :
  MultiprocessContext__init__ amb ps eqs rqs = Return ctx →
  NoDup (sentinel <$> ps) →
  processes ctx = ps ∧ error_queues ctx = eqs ∧ return_queues ctx = rqs ∧
  (∀ s i, sentinels ctx !! s = Some i ↔
          ∃ p, ps !! i = Some p ∧ sentinel p = s) ∧
  size (sentinels ctx) = length ps.
Proof.
  unfold MultiprocessContext__init__.
  destruct (_py_supported_check amb); [|done].
  simpl. intros ? Hnd. simplify_eq. simpl.
  destruct (make_sentinels_lookup_iff ps Hnd) as [Hiff Hsize].
  split_and!; done.
Qed.


(** *** Launching *)

Lemma start_processes_inv amb func args daemon_flag envs idx acc o acc' :
  start_processes amb func args daemon_flag envs idx acc = (o, acc') →
  ∃ done_idx,
    Forall (λ i, is_Some (envs !! i)) done_idx ∧
    l_processes acc' =
      l_processes acc ++
      (started_process amb func args daemon_flag envs <$> done_idx) ∧
    l_error_queues acc' =
      l_error_queues acc ++ replicate (length done_idx) [] ∧
    l_return_queues acc' =
      l_return_queues acc ++ replicate (length done_idx) [] ∧
    match o with
    | Return _ => done_idx = idx
    | Raise e =>
        e = IndexError "list index out of range" ∧
        ∃ i rest, idx = done_idx ++ i :: rest ∧ envs !! i = None
    end.
Proof.
  revert acc. induction idx as [|i idx IH]; intros acc H; simpl in H.
  - simplify_eq. exists []. simpl. by rewrite !app_nil_r.
  - destruct (envs !! i) as [env_dict|] eqn:Hi.
    + apply IH in H as (done_idx & Hall & Hp & He & Hr & Ho). simpl in *.
      assert (Hall' : Forall (λ i, is_Some (envs !! i)) (i :: done_idx))
        by (constructor; by eauto).
      destruct o as [u|e].
      * subst done_idx. exists (i :: idx). simpl.
        rewrite Hp, He, Hr, <- !app_assoc. simpl.
        unfold started_process at 2. rewrite Hi. done.
      * destruct Ho as (-> & j & rest & -> & Hj).
        exists (i :: done_idx). simpl.
        rewrite Hp, He, Hr, <- !app_assoc. simpl.
        unfold started_process at 2. rewrite Hi. simpl.
        split_and!; try done. by eauto.
    + simplify_eq. exists []. simpl. rewrite !app_nil_r.
      split_and!; try done. by exists i, idx.
Qed.

Lemma fmap_seq_lookup {A} (f : nat → A) (n i : nat) :
  (i < n)%nat → (f <$> seq 0 n) !! i = Some (f i).
Proof.
  intros Hi. rewrite list_lookup_fmap, lookup_seq_lt by done. done.
Qed.

Lemma finish_finish p : finish (finish p) = finish p.
Proof. by destruct p as [s d []]. Qed.

Lemma child_exits_lookup i j ctx p q rq :
  processes ctx !! j = Some p →
  error_queues ctx !! j = Some q →
  return_queues ctx !! j = Some rq →
  processes (child_exits i ctx) !! j =
    Some (if bool_decide (i = j) then finish p else p) ∧
  error_queues (child_exits i ctx) !! j =
    Some (if bool_decide (i = j) then q ++ pending_errors p else q) ∧
  return_queues (child_exits i ctx) !! j =
    Some (if bool_decide (i = j) then rq ++ pending_returns p else rq).
Proof.
  intros Hp Hq Hrq. unfold child_exits. case_bool_decide as Hij.
  - subst i. rewrite Hp.
    destruct p as [s d [c|code|code]]; simpl.
    + rewrite list_lookup_insert_eq by by eapply lookup_lt_Some.
      rewrite !list_lookup_alter_eq, Hq, Hrq. done.
    + by rewrite Hp, Hq, Hrq, !app_nil_r.
    + by rewrite Hp, Hq, Hrq, !app_nil_r.
  - destruct (processes ctx !! i) as [p0|]; [|done].
    destruct (status p0); simpl; [|done|done].
    by rewrite list_lookup_insert_ne, !list_lookup_alter_ne.
Qed.

Lemma exit_early_lookup early ctx j p q rq :
  processes ctx !! j = Some p →
  error_queues ctx !! j = Some q →
  return_queues ctx !! j = Some rq →
  processes (exit_early early ctx) !! j =
    Some (if bool_decide (j ∈ early) then finish p else p) ∧
  error_queues (exit_early early ctx) !! j =
    Some (if bool_decide (j ∈ early) then q ++ pending_errors p else q) ∧
  return_queues (exit_early early ctx) !! j =
    Some (if bool_decide (j ∈ early) then rq ++ pending_returns p else rq).
Proof.
  revert ctx p q rq. induction early as [|i rest IH]; intros ctx p q rq Hp Hq Hrq.
  - done.
  - unfold exit_early. simpl. fold (exit_early rest (child_exits i ctx)).
    destruct (child_exits_lookup i j ctx p q rq Hp Hq Hrq) as (H1 & H2 & H3).
    destruct (IH _ _ _ _ H1 H2 H3) as (-> & -> & ->).
    destruct (decide (i = j)) as [->|Hij].
    + rewrite !(bool_decide_true (j = j)) by done.
      rewrite (bool_decide_true (j ∈ j :: rest)) by by left.
      rewrite finish_finish.
      assert (pending_errors (finish p) = [] ∧ pending_returns (finish p) = [])
        as [-> ->] by by destruct p as [s d []].
      rewrite !app_nil_r. by destruct (bool_decide (j ∈ rest)).
    + rewrite !(bool_decide_false (i = j)) by done.
      destruct (decide (j ∈ rest)) as [Hin|Hout].
      * rewrite !(bool_decide_true (j ∈ rest)) by done.
        by rewrite (bool_decide_true (j ∈ i :: rest)) by by right.
      * rewrite !(bool_decide_false (j ∈ rest)) by done.
        rewrite (bool_decide_false (j ∈ i :: rest)); [done|].
        intros [->|?]%elem_of_cons; done.
Qed.

(** The pool that the launching loop leaves when it has started the
    workers [0..m-1] and those listed in [early] have run to their end. *)
Lemma exit_early_launched amb func args daemon_flag envs early m acc :
  l_processes acc = started_process amb func args daemon_flag envs <$> seq 0 m →
  l_error_queues acc = replicate m [] →
  l_return_queues acc = replicate m [] →
  let worker := started_process amb func args daemon_flag envs in
  let run i := run_worker func args (default ∅ (envs !! i)) (os_environ amb) in
  processes (exit_early early (launched acc)) =
    (λ i, if bool_decide (i ∈ early) then finish (worker i) else worker i)
      <$> seq 0 m ∧
  error_queues (exit_early early (launched acc)) =
    (λ i, if bool_decide (i ∈ early) then writes_error (run i) else [])
      <$> seq 0 m ∧
  return_queues (exit_early early (launched acc)) =
    (λ i, if bool_decide (i ∈ early) then writes_return (run i) else [])
      <$> seq 0 m.
Proof.
  intros Hp He Hr worker run.
  destruct (exit_early_inv early (launched acc)) as (_ & Lp & Le & Lr & _).
  simpl in Lp, Le, Lr.
  rewrite Hp, length_fmap, length_seq in Lp.
  rewrite He, length_replicate in Le. rewrite Hr, length_replicate in Lr.
  assert (Hat : ∀ j, (j < m)%nat →
    processes (exit_early early (launched acc)) !! j =
      Some (if bool_decide (j ∈ early) then finish (worker j) else worker j) ∧
    error_queues (exit_early early (launched acc)) !! j =
      Some (if bool_decide (j ∈ early) then writes_error (run j) else []) ∧
    return_queues (exit_early early (launched acc)) !! j =
      Some (if bool_decide (j ∈ early) then writes_return (run j) else [])).
  { intros j Hj.
    apply (exit_early_lookup early (launched acc) j (worker j) [] []); simpl.
    - rewrite Hp. by apply fmap_seq_lookup.
    - rewrite He. by apply lookup_replicate_2.
    - rewrite Hr. by apply lookup_replicate_2. }
  split_and!; apply list_eq; intros j;
    (destruct (decide (j < m)%nat) as [Hj|Hj];
     [ destruct (Hat j Hj) as (H1 & H2 & H3);
       rewrite fmap_seq_lookup by done; done
     | rewrite !lookup_ge_None_2;
       [done | rewrite length_fmap, length_seq; lia | lia] ]).
Qed.


(** X8. When planning yields fewer environment records than workers are
    asked for, [spawn] raises [IndexError] in the middle of its launching
    loop and returns no pool.  The workers that have a record have been
    started by then, and nobody terminates them or waits for them: each is
    left running, or has run to its end and exited with its own code. *)
Theorem spawn_with_too_few_records amb func args nprocs join_flag daemon_flag
    options early schedule pl :
  version_ge_3_4 (version_info amb) = true →
  _options_valid_check options = Return tt →
  _get_subprocess_env_list amb (default_nprocs amb nprocs) options =
    Return pl →
  is_raise (get_context (start_method_of options)) = false →
  (length (processes_env_list pl) < Z.to_nat (default_nprocs amb nprocs))%nat →
  let worker :=
    started_process amb func args daemon_flag (processes_env_list pl) in
  spawn amb func args nprocs join_flag daemon_flag options early schedule =
    Some {| result := Raise (IndexError "list index out of range");
            started :=
              (λ i, if bool_decide (i ∈ early) then finish (worker i)
                    else worker i)
                <$> seq 0 (length (processes_env_list pl)) |}.
Proof.
  intros Hv Hopt Hplan Hctx Hshort worker.
  unfold spawn. rewrite (py_supported_check_ok _ Hv), Hopt, Hplan.
  destruct (get_context (start_method_of options)); [|done].
  destruct (start_processes _ _ _ _ _ _ _) as [o acc] eqn:Hstart.
  apply start_processes_inv in Hstart
    as (done_idx & Hall & Hp & He & Hr & Ho).
  simpl in Hp, He, Hr.
  destruct o as [u|e].
  - subst done_idx. exfalso. rewrite Forall_forall in Hall.
    destruct (Hall (length (processes_env_list pl))) as [x Hx].
    + apply elem_of_seq. lia.
    + apply lookup_lt_Some in Hx. lia.
  - destruct Ho as (-> & i & rest & Hsplit & Hi).
    assert (Hlen : length done_idx = i ∧ i = length (processes_env_list pl)).
    { assert (H1 : seq 0 (Z.to_nat (default_nprocs amb nprocs)) !!
                     length done_idx = Some i).
      { rewrite Hsplit. by apply list_lookup_middle. }
      apply lookup_seq in H1 as [H1 _]. simpl in H1. split; [done|].
      apply lookup_ge_None in Hi.
      destruct (decide (length (processes_env_list pl) < i)%nat) as [Hlt|];
        [|lia].
      exfalso. rewrite Forall_forall in Hall.
      destruct (Hall (length (processes_env_list pl))) as [x Hx].
      - assert (H2 : seq 0 (Z.to_nat (default_nprocs amb nprocs)) !!
                       length (processes_env_list pl) =
                     Some (length (processes_env_list pl))).
        { apply lookup_seq. lia. }
        rewrite Hsplit, lookup_app_l in H2 by lia.
        by eapply list_elem_of_lookup_2.
      - apply lookup_lt_Some in Hx. lia. }
    destruct Hlen as [Hlen Hi'].
    assert (Htake : done_idx = seq 0 (length (processes_env_list pl))).
    { rewrite <- (take_app_length done_idx (i :: rest)), <- Hsplit.
      rewrite take_seq. f_equal. lia. }
    rewrite Htake in Hp, He, Hr. rewrite length_seq in He, Hr.
    destruct (exit_early_launched _ _ _ _ _ early _ _ Hp He Hr) as (Wp & _).
    by rewrite Wp.
Qed.

(** X10. A worker count below 1 other than -1 is not rejected: when the
    checks and planning pass, [spawn] starts no process and returns a pool
    without processes, whether it joins or not. *)
Theorem spawn_nonpositive_count amb func args nprocs join_flag daemon_flag
    options early schedule pl :
  nprocs ≤ 0 → nprocs ≠ -1 →
  version_ge_3_4 (version_info amb) = true →
  _options_valid_check options = Return tt →
  _get_subprocess_env_list amb nprocs options = Return pl →
  is_raise (get_context (start_method_of options)) = false →
  spawn amb func args nprocs join_flag daemon_flag options early schedule =
    Some {| result := Return {| error_queues := []; return_queues := [];
                                processes := []; sentinels := ∅ |};
            started := [] |}.
Proof.
  intros Hle Hne Hv Hopt Hplan Hctx.
  unfold spawn. rewrite (py_supported_check_ok _ Hv), Hopt.
  rewrite default_nprocs_verbatim by done. rewrite Hplan.
  destruct (get_context (start_method_of options)); [|done].
  replace (Z.to_nat nprocs) with 0%nat by lia.
  simpl. rewrite exit_early_empty by done.
  simpl. unfold MultiprocessContext__init__.
  rewrite (py_supported_check_ok _ Hv). simpl.
  destruct join_flag; simpl; [|done].
  by destruct schedule.
Qed.

(** *** Planning with a selection, and without a worker count *)

Lemma check_cards_visible cards devices :
  Forall (λ id, id ∈ devices) cards → check_cards cards devices = Return tt.
Proof.
  induction 1 as [|c rest Hc _ IH]; simpl; [done|].
  unfold str_in. by rewrite bool_decide_true.
Qed.

(** X11. When every selected device is visible, planning hands the
    selection to the topology resolver as it was given, whatever the worker
    count is: the count is not compared with the number of selected
    devices. *)
Theorem plan_accepts_visible_selection amb nprocs options s :
  node_ip_missing options = false →
  dict_get options "selected_gpus" PyNone = PyStr s →
  Forall (λ id, id ∈ env_devices_list amb) (split_comma s) →
  _get_subprocess_env_list amb nprocs options =
    resolve_and_prepare (resolver_args options (PyStr s)).
Proof.
  intros Hip Hsel Hall.
  unfold _get_subprocess_env_list, plan_selected_gpus.
  by rewrite Hip, Hsel, (check_cards_visible _ _ Hall).
Qed.

(** X12. With [nprocs = -1], no selected device, a device other than the
    cpu and [CUDA_VISIBLE_DEVICES] unset or empty, planning never fails for
    want of devices: the selection handed to the resolver is all the
    devices [0], ..., [count - 1], in this order. *)
Theorem plan_auto_selects_every_device amb options :
  node_ip_missing options = false →
  dict_get options "selected_gpus" PyNone = PyNone →
  get_device amb ≠ "cpu"%string →
  (os_environ amb !! "CUDA_VISIBLE_DEVICES"%string = None ∨
   os_environ amb !! "CUDA_VISIBLE_DEVICES"%string = Some EmptyString) →
  _get_subprocess_env_list amb (default_nprocs amb (-1)) options =
    resolve_and_prepare
      (resolver_args options
         (PyStr (join_comma
                   ((pretty : Z → string) <$>
                    seqZ 0 (get_cuda_device_count amb))))).
Proof.
  intros Hip Hsel Hdev Henv.
  assert (Hn : default_nprocs amb (-1) = get_cuda_device_count amb).
  { unfold default_nprocs. simpl.
    destruct (String.eqb_spec (get_device amb) "cpu"); [done|done]. }
  assert (Hdevs : env_devices_list amb =
                  (pretty : Z → string) <$> seqZ 0 (get_cuda_device_count amb)).
  { unfold env_devices_list. by destruct Henv as [-> | ->]. }
  unfold _get_subprocess_env_list. rewrite Hip.
  rewrite plan_selected_gpus_default by done.
  rewrite Hn, Hdevs, length_fmap, length_seqZ.
  destruct (Z.ltb_spec (Z.of_nat (Z.to_nat (get_cuda_device_count amb)))
              (get_cuda_device_count amb)) as [Hlt|Hge].
  - lia.
  - simpl. rewrite take_ge; [done|].
    rewrite length_fmap, length_seqZ. lia.
Qed.

(** *** Workers a round does not touch *)

Lemma same_at_refl j ctx : same_at j ctx ctx.
Proof. done. Qed.

Lemma same_at_trans j a b c : same_at j a b → same_at j b c → same_at j a c.
Proof. intros (? & ? & ?) (? & ? & ?). split_and!; congruence. Qed.

Lemma child_exits_other i j ctx : i ≠ j → same_at j (child_exits i ctx) ctx.
Proof.
  intros Hne. unfold same_at, child_exits.
  destruct (processes ctx !! i) as [p|]; [|done].
  destruct (status p); simpl; [|done|done].
  by rewrite list_lookup_insert_ne, !list_lookup_alter_ne.
Qed.

Lemma process_join_other i j ctx : i ≠ j → same_at j (process_join i ctx) ctx.
Proof.
  intros Hne. unfold same_at, process_join.
  destruct (processes ctx !! i) as [p|]; [|done].
  destruct (status p); simpl; [| |done].
  - by rewrite list_lookup_insert_ne, !list_lookup_alter_ne.
  - by rewrite list_lookup_insert_ne.
Qed.

Lemma wait_other ready j ctx :
  (∀ s, s ∈ ready → sentinels ctx !! s ≠ Some j) →
  same_at j (wait ctx ready) ctx.
Proof.
  revert ctx. induction ready as [|s rest IH]; intros ctx Hj; [done|].
  unfold wait. simpl.
  fold (wait (match sentinels ctx !! s with
              | Some index => child_exits index ctx
              | None => ctx
              end) rest).
  destruct (sentinels ctx !! s) as [i|] eqn:Hs.
  - eapply same_at_trans.
    + apply IH. intros s' Hs'. rewrite child_exits_sentinels.
      apply Hj. by right.
    + apply child_exits_other. intros ->. by apply (Hj s); [left|].
  - apply IH. intros s' Hs'. apply Hj. by right.
Qed.

Lemma inspect_ready_other ready j ctx r ctx1 :
  inspect_ready ready ctx = (r, ctx1) →
  (∀ s, s ∈ ready → sentinels ctx !! s ≠ Some j) →
  same_at j ctx1 ctx.
Proof.
  revert ctx. induction ready as [|s rest IH]; intros ctx H Hj.
  - simpl in H. by simplify_eq.
  - simpl in H. destruct (sentinels ctx !! s) as [i|] eqn:Hs;
      [|by simplify_eq].
    simpl in H. destruct (processes ctx !! i) as [p|] eqn:Hp;
      [|by simplify_eq].
    assert (Hij : i ≠ j) by (intros ->; by apply (Hj s); [left|]).
    case_bool_decide.
    + simplify_eq.
      eapply same_at_trans; [by apply (process_join_other i j)|done].
    + eapply same_at_trans.
      * eapply IH; [done|]. intros s' Hs'.
        rewrite process_join_sentinels. simpl.
        intros [_ Hl]%lookup_delete_Some. by apply (Hj s'); [right|].
      * eapply same_at_trans; [by apply (process_join_other i j)|done].
Qed.

Lemma inspect_ready_blames_reported ready ctx i ctx1 :
  inspect_ready ready ctx = (Return (Some i), ctx1) →
  ∃ s, s ∈ ready ∧ sentinels ctx !! s = Some i.
Proof.
  revert ctx. induction ready as [|s rest IH]; intros ctx H.
  - simpl in H. by simplify_eq.
  - simpl in H. destruct (sentinels ctx !! s) as [i0|] eqn:Hs;
      [|by simplify_eq].
    simpl in H. destruct (processes ctx !! i0) as [p|] eqn:Hp;
      [|by simplify_eq].
    case_bool_decide.
    + simplify_eq. exists s. split; [by left|done].
    + apply IH in H as (s' & Hin & Hl).
      rewrite process_join_sentinels in Hl. simpl in Hl.
      apply lookup_delete_Some in Hl as [_ Hl].
      exists s'. split; [by right|done].
Qed.

Lemma throw_exception_other ctx i j :
  i ≠ j →
  error_queues (_throw_exception ctx i).2 !! j = error_queues ctx !! j ∧
  return_queues (_throw_exception ctx i).2 = return_queues ctx.
Proof.
  intros Hne. unfold _throw_exception.
  destruct (error_queues ctx !! i) as [[|t q]|]; [| |done].
  - destruct (processes ctx !! i) as [p|]; [|done].
    destruct (exitcode p) as [code|]; [|done].
    destruct (code <? 0); [|done]. by destruct (Signals (- code)).
  - simpl. by rewrite list_lookup_insert_ne.
Qed.

(** X13. In a round of [join] that ends by raising, a worker that the wait
    did not report is terminated if it was alive, and reaped: it ends with
    the code of SIGTERM, or with its own code if it had exited before, and
    neither of its queues has changed. *)
Theorem join_failure_terminates_unreported ctx ready e ctx' j p :
  well_formed ctx → wait_result ctx ready →
  join ctx ready = (Raise e, ctx') →
  processes ctx !! j = Some p →
  (∀ s, s ∈ ready → sentinels ctx !! s ≠ Some j) →
  processes ctx' !! j =
    Some (set_status p (Reaped (if is_alive p then - SIGTERM
                                else final_code p))) ∧
  error_queues ctx' !! j = error_queues ctx !! j ∧
  return_queues ctx' !! j = return_queues ctx !! j.
Proof.
  intros Hwf Hready Hjoin Hp Hj. unfold join in Hjoin.
  case_bool_decide; [congruence|].
  destruct (inspect_ready_returns ready (wait ctx ready)
              (wait_well_formed _ _ Hwf) (wait_wait_result _ _ Hready))
    as (r & ctx1 & Hi).
  rewrite Hi in Hjoin. destruct r as [i|]; [|congruence].
  simplify_eq.
  destruct (wait_inv ready ctx) as (Hs0 & _).
  assert (Hsame : same_at j ctx1 ctx).
  { eapply same_at_trans; [|by apply wait_other].
    eapply inspect_ready_other; [done|]. intros s Hs. rewrite Hs0.
    by apply Hj. }
  destruct Hsame as (Hps & Heq & Hrq).
  assert (Hij : i ≠ j).
  { apply inspect_ready_blames_reported in Hi as (s & Hin & Hl).
    rewrite Hs0 in Hl. intros ->. by apply (Hj s). }
  destruct (throw_exception_other (drain ctx1) i j Hij) as [Te Tr].
  destruct (foldl_drain_step_queues (seq 0 (length (processes ctx1))) ctx1)
    as [De Dr].
  split_and!.
  - rewrite throw_exception_processes, drain_processes, list_lookup_fmap.
    rewrite Hps, Hp. simpl. f_equal.
    by destruct p as [s d [c|code|code]].
  - rewrite Te. unfold drain. by rewrite De.
  - rewrite Tr. unfold drain. by rewrite Dr.
Qed.

(** *** A round in which nobody has failed *)

Lemma reap_reap p : reap (reap p) = reap p.
Proof. done. Qed.

Lemma inspect_ready_all_zero ready ctx :
  NoDup ready →
  (∀ s, s ∈ ready →
     ∃ j, sentinels ctx !! s = Some j ∧ code_at ctx j = Some 0) →
  ∃ ctx1,
    inspect_ready ready ctx = (Return None, ctx1) ∧
    (∀ k, sentinels ctx1 !! k =
          if decide (k ∈ ready) then None else sentinels ctx !! k) ∧
    (∀ s j, s ∈ ready → sentinels ctx !! s = Some j →
       ∃ p, processes ctx !! j = Some p ∧
            processes ctx1 !! j = Some (reap p)).
Proof.
  revert ctx. induction ready as [|s rest IH]; intros ctx Hnd Hzero.
  - exists ctx. split_and!; [done|done|]. intros s j Hs. inversion Hs.
  - apply NoDup_cons in Hnd as [Hfresh Hnd].
    destruct (Hzero s) as (j & Hs & Hj); [by left|].
    assert (Hp : is_Some (processes ctx !! j)).
    { unfold code_at in Hj. by destruct (processes ctx !! j); eauto. }
    rewrite (inspect_ready_cons _ _ _ j) by done.
    rewrite bool_decide_false by (rewrite Hj; auto).
    set (ctx2 := process_join j _).
    destruct (IH ctx2 Hnd) as (ctx1 & Hrun & Hsent & Hproc).
    { intros s' Hs'. destruct (Hzero s') as (j' & ? & ?); [by right|].
      exists j'. unfold ctx2.
      rewrite process_join_sentinels, code_at_process_join. simpl.
      split; [|done]. rewrite lookup_delete_ne; [done|]. by intros ->. }
    exists ctx1. split; [done|]. split.
    + intros k. rewrite Hsent. unfold ctx2.
      rewrite process_join_sentinels. simpl.
      destruct (decide (k = s)) as [->|Hk].
      * rewrite lookup_delete_eq.
        rewrite (decide_True (P := s ∈ s :: rest)) by list_mem.
        by case_decide.
      * rewrite lookup_delete_ne by done.
        destruct (decide (k ∈ rest)).
        -- by rewrite decide_True by list_mem.
        -- by rewrite decide_False by list_mem.
    + intros s0 j0 Hin Hl.
      destruct (inspect_ready_inv _ _ _ _ Hrun) as (Hlen & Hps & _).
      assert (Hstep : ∀ k, processes ctx2 !! k =
                (if decide (j = k) then reap <$> processes ctx !! j
                 else processes ctx !! k)).
      { intros k. unfold ctx2. rewrite process_join_processes. simpl.
        by rewrite list_lookup_alter. }
      destruct (decide (s0 = s)) as [->|Hne].
      * assert (j0 = j) as -> by congruence.
        destruct Hp as [p Hp]. exists p. split; [done|].
        assert (H2 : processes ctx2 !! j = Some (reap p)).
        { rewrite Hstep, decide_True by done. by rewrite Hp. }
        destruct (lookup_lt_is_Some_2 (processes ctx1) j) as [p1 H1].
        { rewrite Hlen. by eapply lookup_lt_Some. }
        destruct (Hps _ _ H1) as (p' & Hp' & Hrel). simplify_eq.
        by destruct Hrel as [->| ->].
      * assert (Hin' : s0 ∈ rest) by (apply elem_of_cons in Hin; tauto).
        destruct (Hproc s0 j0 Hin') as (p2 & H2 & H1).
        { unfold ctx2. rewrite process_join_sentinels. simpl.
          by rewrite lookup_delete_ne. }
        rewrite Hstep in H2. case_decide as Hjk.
        -- subst j0. destruct Hp as [p Hp]. rewrite Hp in H2.
           simpl in H2. simplify_eq. exists p. by rewrite H1.
        -- exists p2. by rewrite H1.
Qed.

(** X14. In a well-formed pool, a round of [join] in which every worker
    that the wait reports has exit code 0 does not raise.  It takes exactly
    the reported sentinels out of the live set, leaves each reported worker
    reaped with code 0, touches no other worker, and returns whether the
    live set is empty now. *)
Theorem join_round_without_failure ctx ready :
  well_formed ctx → wait_result ctx ready →
  (∀ s j, s ∈ ready → sentinels ctx !! s = Some j → code_at ctx j = Some 0) →
  ∃ ctx',
    join ctx ready =
      (Return (bool_decide (size (sentinels ctx') = 0%nat)), ctx') ∧
    (∀ k, sentinels ctx' !! k =
          if decide (k ∈ ready) then None else sentinels ctx !! k) ∧
    (∀ s j, s ∈ ready → sentinels ctx !! s = Some j →
       ∃ p, processes ctx !! j = Some p ∧
            processes ctx' !! j = Some (set_status p (Reaped 0))) ∧
    (∀ j, (∀ s, s ∈ ready → sentinels ctx !! s ≠ Some j) →
       same_at j ctx' ctx).
Proof.
  intros Hwf [Hnd Hin] Hzero. unfold join.
  case_bool_decide as Hsize.
  - assert (Hempty : sentinels ctx = ∅) by by apply map_size_empty_iff.
    assert (Hready : ready = []).
    { destruct ready as [|s rest]; [done|].
      destruct (Hin s) as [i Hi]; [by left|].
      by rewrite Hempty, lookup_empty in Hi. }
    subst ready. exists ctx. rewrite bool_decide_true by done.
    split_and!; [done|done| |done].
    intros s j Hs. inversion Hs.
  - destruct (wait_inv ready ctx) as (Hs0 & _ & Hps0 & Hc0 & _).
    destruct (inspect_ready_all_zero ready (wait ctx ready) Hnd)
      as (ctx1 & Hrun & Hsent & Hproc).
    { intros s Hs. destruct (Hin s Hs) as [j Hj]. exists j.
      rewrite Hs0, Hc0. split; [done|]. by eapply Hzero. }
    rewrite Hrun. exists ctx1. split_and!; [done| | |].
    + intros k. by rewrite Hsent, Hs0.
    + intros s j Hs Hl.
      destruct (Hproc s j Hs) as (p0 & Hp0 & Hp1); [by rewrite Hs0|].
      destruct (Hps0 _ _ Hp0) as (p & Hp & Hrel).
      exists p. split; [done|]. rewrite Hp1. f_equal.
      assert (Hcode : final_code p = 0).
      { specialize (Hzero s j Hs Hl). unfold code_at in Hzero.
        rewrite Hp in Hzero. by simplify_eq/=. }
      destruct p as [sn d [c|code|code]];
        unfold final_code in Hcode; simpl in Hcode;
        destruct Hrel as [->| ->]; unfold reap, finish, final_code, set_status;
        simpl; by rewrite ?Hcode.
    + intros j Hj. eapply same_at_trans; [|by apply wait_other].
      eapply inspect_ready_other; [done|]. intros s Hs. rewrite Hs0.
      by apply Hj.
Qed.

(** *** From the worker to the caller *)

Lemma join_first_failure_raises ctx pre s post i c q :
  NoDup (pre ++ [s]) →
  (∀ s', s' ∈ pre →
     ∃ j, sentinels ctx !! s' = Some j ∧ code_at ctx j = Some 0) →
  sentinels ctx !! s = Some i →
  code_at ctx i = Some c → c ≠ 0 →
  settled_error_queue ctx i = Some q →
  ∃ ctx1,
    join ctx (pre ++ s :: post) =
      (Raise (_throw_exception (drain ctx1) i).1,
       (_throw_exception (drain ctx1) i).2) ∧
    (_throw_exception (drain ctx1) i).1 = failure_report i q c ∧
    error_queues (drain ctx1) !! i = Some q.
Proof.
  intros Hnd Hpre Hs Hc Hne Hq.
  destruct (wait_inv (pre ++ s :: post) ctx) as (Hs0 & _ & _ & Hc0 & Hq0).
  destruct (inspect_ready_first_failure pre s post i
              (wait ctx (pre ++ s :: post)) Hnd)
    as (ctx1 & Hrun & Hq1 & (p & Hp & Hp1) & _).
  { intros s' Hin. destruct (Hpre s' Hin) as (j & ? & ?).
    exists j. by rewrite Hs0, Hc0. }
  { by rewrite Hs0. }
  { rewrite Hc0. by eauto. }
  rewrite Hq0 in Hq1. rewrite <- Hc0 in Hc.
  assert (Hqd : error_queues (drain ctx1) !! i = Some q).
  { unfold drain. rewrite foldl_drain_step_error_queue; [congruence|].
    intros p0 ?. by simplify_eq. }
  exists ctx1. unfold join.
  rewrite (sentinels_not_empty _ _ _ Hs), Hrun. split_and!; [done| |done].
  apply (throw_exception_report _ _ _ (reap p)); [done| |].
  - by rewrite drain_processes, list_lookup_fmap, Hp1.
  - rewrite exitcode_reap. unfold code_at in Hc. rewrite Hp in Hc.
    by simplify_eq/=.
Qed.

(** X15. Let a running worker, whose error queue is empty, run a user
    function that raises an [Exception], and let it be the first worker
    with a non-zero code that the wait reports.  Then [join] raises an
    [Exception] whose message is the frame naming the worker's index
    followed by the traceback that was formatted in the worker, and the
    worker's error queue is empty again. *)
Theorem worker_exception_reaches_caller ctx pre s post i p (func : user_func)
    args env_dict inherited traceback :
  NoDup (pre ++ [s]) →
  (∀ s', s' ∈ pre →
     ∃ j, sentinels ctx !! s' = Some j ∧ code_at ctx j = Some 0) →
  sentinels ctx !! s = Some i →
  processes ctx !! i = Some p →
  status p = Running (run_worker func args env_dict inherited) →
  func args (_set_trainer_env env_dict (_remove_risky_env inherited)) =
    Raises (StdException traceback) →
  error_queues ctx !! i = Some [] →
  ∃ ctx',
    join ctx (pre ++ s :: post) =
      (Raise (Exception (framed_trace_message i +:+ traceback)), ctx') ∧
    error_queues ctx' !! i = Some [].
Proof.
  intros Hnd Hpre Hs Hp Hst Hfunc Hq.
  assert (Hrun : run_worker func args env_dict inherited =
    {| writes_error := [traceback]; writes_return := []; exit_status := 1 |}).
  { unfold run_worker, _func_wrapper. simpl. by rewrite Hfunc. }
  destruct (join_first_failure_raises ctx pre s post i 1 [traceback]
              Hnd Hpre Hs) as (ctx1 & Hjoin & Hthrow & Hqd).
  - unfold code_at, final_code. rewrite Hp. simpl. by rewrite Hst, Hrun.
  - done.
  - unfold settled_error_queue, pending_errors.
    by rewrite Hp, Hq, Hst, Hrun.
  - eexists. split.
    + rewrite Hjoin, Hthrow. done.
    + unfold _throw_exception. rewrite Hqd. simpl.
      apply list_lookup_insert_eq. by eapply lookup_lt_Some.
Qed.

(** X16. Let a running worker run a user function that returns a value
    that can be pickled, and let the wait report this worker alone.  Then
    [join] does not raise: the worker is reaped with code 0, the value is
    at the end of its result queue and its error queue is as before. *)
Theorem worker_result_is_on_its_queue ctx s i p (func : user_func) args
    env_dict inherited v q :
  sentinels ctx !! s = Some i →
  processes ctx !! i = Some p →
  status p = Running (run_worker func args env_dict inherited) →
  func args (_set_trainer_env env_dict (_remove_risky_env inherited)) =
    Returns v →
  return_queues ctx !! i = Some q →
  ∃ b ctx',
    join ctx [s] = (Return b, ctx') ∧
    processes ctx' !! i = Some (set_status p (Reaped 0)) ∧
    return_queues ctx' !! i = Some (q ++ [v]) ∧
    error_queues ctx' !! i = error_queues ctx !! i.
Proof.
  intros Hs Hp Hst Hfunc Hq.
  assert (Hrun : run_worker func args env_dict inherited =
    {| writes_error := []; writes_return := [v]; exit_status := 0 |}).
  { unfold run_worker, _func_wrapper. simpl. by rewrite Hfunc. }
  rewrite Hrun in Hst. unfold join.
  rewrite (sentinels_not_empty _ _ _ Hs).
  assert (Hlt : (i < length (processes ctx))%nat)
    by (by eapply lookup_lt_Some).
  assert (Hw : wait ctx [s] =
    {| error_queues := alter (λ q, q ++ []) i (error_queues ctx);
       return_queues := alter (λ q, q ++ [v]) i (return_queues ctx);
       processes := <[i := set_status p (Exited 0)]> (processes ctx);
       sentinels := sentinels ctx |}).
  { unfold wait. simpl. rewrite Hs. unfold child_exits, finish.
    by rewrite Hp, Hst. }
  rewrite Hw.
  rewrite (inspect_ready_cons _ _ _ i); simpl;
    [|done|by rewrite list_lookup_insert_eq; eauto].
  rewrite bool_decide_false.
  2:{ unfold code_at. simpl. rewrite list_lookup_insert_eq by done.
      simpl. auto. }
  simpl. eexists _, _. split; [done|].
  unfold process_join. simpl.
  rewrite list_lookup_insert_eq by done. simpl.
  rewrite alter_app_nil_lookup, list_lookup_alter_eq, Hq.
  split_and!; try done.
  rewrite list_lookup_insert_eq; [done|].
  by rewrite length_insert.
Qed.

(** *** Joining until every worker has succeeded *)

Lemma track_alter (f : Process → Process) i a b :
  (∀ p, sentinel (f p) = sentinel p) →
  (∀ p, status p = Reaped 0 → status (f p) = Reaped 0) →
  sentinels b = sentinels a →
  processes b = alter f i (processes a) →
  sentinels_track a → sentinels_track b.
Proof.
  intros Hsen Hst Hs Hp [HA HB]. split.
  - intros s k. rewrite Hs, Hp. intros (p & Hk & <-)%HA.
    rewrite list_lookup_alter. case_decide as Hik.
    + subst k. rewrite Hk. simpl. by eauto.
    + by eauto.
  - intros k p2. rewrite Hs, Hp, list_lookup_alter. case_decide as Hik.
    + subst k. destruct (processes a !! i) as [p|] eqn:Hk; [|done].
      simpl. intros ?. simplify_eq. rewrite Hsen.
      destruct (HB _ _ Hk) as [?|?]; [by left|right; by apply Hst].
    + apply HB.
Qed.

Lemma wait_track ready ctx : sentinels_track ctx → sentinels_track (wait ctx ready).
Proof.
  revert ctx. induction ready as [|s rest IH]; intros ctx Htr; [done|].
  unfold wait. simpl.
  fold (wait (match sentinels ctx !! s with
              | Some index => child_exits index ctx
              | None => ctx
              end) rest).
  apply IH. destruct (sentinels ctx !! s) as [i|]; [|done].
  apply (track_alter finish i ctx); try done.
  - by intros [sn d []].
  - intros [sn d []]; simpl; intros; by simplify_eq.
  - apply child_exits_sentinels.
  - apply child_exits_processes.
Qed.

Lemma inspect_ready_track ready ctx ctx1 :
  inspect_ready ready ctx = (Return None, ctx1) →
  sentinels_track ctx → sentinels_track ctx1.
Proof.
  revert ctx. induction ready as [|s rest IH]; intros ctx H Htr.
  - simpl in H. by simplify_eq.
  - simpl in H. destruct (sentinels ctx !! s) as [i|] eqn:Hs;
      [|by simplify_eq].
    simpl in H. destruct (processes ctx !! i) as [p|] eqn:Hp;
      [|by simplify_eq].
    rewrite exitcode_after_join in H.
    case_bool_decide as Hcode; [by simplify_eq|].
    apply IH in H; [done|].
    assert (Hzero : final_code p = 0).
    { unfold code_at in Hcode. simpl in Hcode.
      rewrite Hp in Hcode. by simplify_eq/=. }
    destruct Htr as [HA HB]. split.
    + intros s' k. rewrite process_join_sentinels, process_join_processes.
      simpl. intros [Hne Hl]%lookup_delete_Some.
      destruct (HA _ _ Hl) as (p' & Hk & <-).
      rewrite list_lookup_alter. case_decide as Hik.
      * subst k. rewrite Hk. simpl. by eauto.
      * by eauto.
    + intros k p2. rewrite process_join_sentinels, process_join_processes.
      simpl. rewrite list_lookup_alter. case_decide as Hik.
      * subst k. rewrite Hp. simpl. intros ?. simplify_eq. right.
        unfold reap. simpl. by rewrite Hzero.
      * intros Hk. destruct (HB _ _ Hk) as [Hl|?]; [|by right].
        left. rewrite lookup_delete_ne; [done|].
        intros Heq. rewrite <- Heq, Hs in Hl. by simplify_eq.
Qed.

Lemma join_return_track ctx ready b ctx' :
  join ctx ready = (Return b, ctx') →
  sentinels_track ctx →
  sentinels_track ctx' ∧
  length (processes ctx') = length (processes ctx) ∧
  (b = true → size (sentinels ctx') = 0%nat).
Proof.
  unfold join. intros H Htr. case_bool_decide as Hsize.
  - by simplify_eq.
  - destruct (inspect_ready ready (wait ctx ready)) as [[[i|]|e] ctx1] eqn:Hi;
      simplify_eq.
    destruct (inspect_ready_inv _ _ _ _ Hi) as (Hlen & _).
    destruct (wait_inv ready ctx) as (_ & Hlen0 & _).
    split_and!.
    + eapply inspect_ready_track; [done|]. by apply wait_track.
    + congruence.
    + intros Hb. by apply bool_decide_eq_true in Hb.
Qed.

Lemma join_until_done_track schedule ctx ctx1 :
  join_until_done schedule ctx = Some (Return tt, ctx1) →
  sentinels_track ctx →
  sentinels_track ctx1 ∧
  length (processes ctx1) = length (processes ctx) ∧
  size (sentinels ctx1) = 0%nat.
Proof.
  revert ctx. induction schedule as [|ready later IH]; intros ctx H Htr.
  - simpl in H. case_bool_decide; by simplify_eq.
  - simpl in H.
    destruct (join ctx ready) as [[[|]|e] ctx2] eqn:Hjoin; [| |by simplify_eq].
    + simplify_eq.
      destruct (join_return_track _ _ _ _ Hjoin Htr) as (? & ? & Hd).
      split_and!; [done|done|by apply Hd].
    + destruct (join_return_track _ _ _ _ Hjoin Htr) as (Htr2 & Hlen & _).
      destruct (IH _ H Htr2) as (? & ? & ?).
      split_and!; [done|congruence|done].
Qed.

Lemma track_drained_all_reaped ctx :
  sentinels_track ctx → size (sentinels ctx) = 0%nat →
  Forall (λ p, status p = Reaped 0) (processes ctx).
Proof.
  intros [_ HB] Hsize. apply map_size_empty_iff in Hsize.
  apply Forall_lookup. intros i p Hp.
  destruct (HB _ _ Hp) as [Hl|?]; [|done].
  by rewrite Hsize, lookup_empty in Hl.
Qed.

Lemma make_sentinels_track ps eqs rqs :
  NoDup (sentinel <$> ps) →
  sentinels_track {| error_queues := eqs; return_queues := rqs;
                     processes := ps; sentinels := make_sentinels ps |}.
Proof.
  intros Hnd. destruct (make_sentinels_lookup_iff ps Hnd) as [Hiff _].
  split; simpl.
  - intros s i. by rewrite Hiff.
  - intros i p Hp. left. apply Hiff. by eauto.
Qed.

(** X17. Let the system give distinct sentinels to the processes that are
    started.  When [spawn] is called with [join=True] and returns a pool,
    it has started one process per requested worker, no sentinel is left
    in the pool, and every process has been reaped with exit code 0. *)
Theorem spawn_with_join_returns_after_success amb func args nprocs
    daemon_flag options early schedule r ctx :
  (∀ i j, (i < Z.to_nat (default_nprocs amb nprocs))%nat →
          (j < Z.to_nat (default_nprocs amb nprocs))%nat →
          new_sentinel amb i = new_sentinel amb j → i = j) →
  spawn amb func args nprocs true daemon_flag options early schedule = Some r →
  result r = Return ctx →
  started r = processes ctx ∧
  length (processes ctx) = Z.to_nat (default_nprocs amb nprocs) ∧
  size (sentinels ctx) = 0%nat ∧
  Forall (λ p, status p = Reaped 0) (processes ctx).
Proof.
  unfold spawn. intros Hinj Hspawn Hres.
  destruct (_py_supported_check amb) as [[]|e] eqn:Hpy;
    [|by simplify_eq/=].
  destruct (_options_valid_check options); [|by simplify_eq/=].
  destruct (_get_subprocess_env_list amb _ options) as [pl|];
    [|by simplify_eq/=].
  destruct (get_context _); [|by simplify_eq/=].
  destruct (start_processes _ _ _ _ _ _ _) as [[u|e] acc] eqn:Hstart;
    [|by simplify_eq/=].
  apply start_processes_inv in Hstart
    as (done_idx & Hall & Hp & He & Hr & ->).
  simpl in Hp, He, Hr.
  destruct (exit_early_inv early (launched acc)) as (_ & Lp & _).
  pose proof (exit_early_sentinel_list early (launched acc)) as Hsl.
  simpl in Lp, Hsl. rewrite Hp in Lp, Hsl.
  rewrite length_fmap, length_seq in Lp.
  remember (exit_early early (launched acc)) as world eqn:Hworld.
  unfold MultiprocessContext__init__ in Hspawn. rewrite Hpy in Hspawn.
  simpl in Hspawn.
  destruct (join_until_done schedule _) as [[[[]|e] ctx1]|] eqn:Hloop;
    simplify_eq/=.
  apply join_until_done_track in Hloop as (Htr & Hlen & Hsize).
  - simpl in Hlen. rewrite Lp in Hlen.
    split_and!; [done|done|done|].
    by apply track_drained_all_reaped.
  - apply make_sentinels_track. rewrite Hsl, <- list_fmap_compose.
    apply NoDup_fmap_2_strong; [|apply NoDup_seq].
    intros i j Hi Hj. apply elem_of_seq in Hi, Hj. simpl.
    apply Hinj; lia.
Qed.

Lemma inspect_ready_code_at ready ctx r ctx1 j :
  inspect_ready ready ctx = (r, ctx1) → code_at ctx1 j = code_at ctx j.
Proof.
  intros H. destruct (inspect_ready_inv _ _ _ _ H) as (Hlen & Hps & _).
  unfold code_at.
  destruct (processes ctx1 !! j) as [p1|] eqn:H1.
  - destruct (Hps _ _ H1) as (p & -> & [->| ->]); done.
  - apply lookup_ge_None in H1. rewrite Hlen in H1.
    apply lookup_ge_None in H1. by rewrite H1.
Qed.

Lemma join_all_zero_step ctx ready :
  well_formed ctx → wait_result ctx ready →
  (∀ s j, s ∈ ready → sentinels ctx !! s = Some j → code_at ctx j = Some 0) →
  ∃ ctx',
    join ctx ready =
      (Return (bool_decide (size (sentinels ctx') = 0%nat)), ctx') ∧
    (∀ k, sentinels ctx' !! k =
          if decide (k ∈ ready) then None else sentinels ctx !! k) ∧
    well_formed ctx' ∧
    (∀ j, code_at ctx' j = code_at ctx j).
Proof.
  intros Hwf [Hnd Hin] Hzero. unfold join.
  case_bool_decide as Hsize.
  - assert (Hempty : sentinels ctx = ∅) by by apply map_size_empty_iff.
    exists ctx. rewrite bool_decide_true by done.
    split_and!; [done| |done|done].
    intros k. rewrite Hempty, lookup_empty. by case_decide.
  - destruct (wait_inv ready ctx) as (Hs0 & Hl0 & _ & Hc0 & _).
    destruct (inspect_ready_all_zero ready (wait ctx ready) Hnd)
      as (ctx1 & Hrun & Hsent & _).
    { intros s Hs. destruct (Hin s Hs) as [j Hj]. exists j.
      rewrite Hs0, Hc0. split; [done|]. by eapply Hzero. }
    rewrite Hrun. exists ctx1. split_and!; [done| | |].
    + intros k. by rewrite Hsent, Hs0.
    + intros s j. rewrite Hsent, Hs0. case_decide; [done|].
      intros Hl. apply Hwf in Hl.
      destruct (inspect_ready_inv _ _ _ _ Hrun) as (Hlen & _).
      apply lookup_lt_is_Some. rewrite Hlen, Hl0.
      by apply lookup_lt_is_Some.
    + intros j. by rewrite (inspect_ready_code_at _ _ _ _ _ Hrun), Hc0.
Qed.

(** X18. In a well-formed pool all of whose workers end with exit code 0,
    let the successive waits report every sentinel of the live set, each
    exactly once.  Then the joining loop of [spawn] comes to an end: it
    returns without raising, and no sentinel is left. *)
Theorem join_until_done_succeeds schedule ctx :
  well_formed ctx →
  (∀ s j, sentinels ctx !! s = Some j → code_at ctx j = Some 0) →
  NoDup (concat schedule) →
  (∀ s, s ∈ concat schedule ↔ is_Some (sentinels ctx !! s)) →
  ∃ ctx',
    join_until_done schedule ctx = Some (Return tt, ctx') ∧
    size (sentinels ctx') = 0%nat.
Proof.
  revert ctx. induction schedule as [|ready later IH];
    intros ctx Hwf Hzero Hnd Hcover.
  - assert (Hempty : sentinels ctx = ∅).
    { apply map_eq. intros s. rewrite lookup_empty.
      destruct (sentinels ctx !! s) eqn:E; [|done].
      assert (Hs : s ∈ concat []) by (apply Hcover; by eauto).
      inversion Hs. }
    exists ctx. simpl. rewrite Hempty, bool_decide_true by done. done.
  - simpl in Hnd, Hcover. apply NoDup_app in Hnd as (Hnd1 & Hdisj & Hnd2).
    destruct (join_all_zero_step ctx ready Hwf)
      as (ctx1 & Hjoin & Hsent & Hwf1 & Hcode1).
    { split; [done|]. intros s Hs. apply Hcover. list_mem. }
    { intros s j _. apply Hzero. }
    simpl. rewrite Hjoin. case_bool_decide as Hsize.
    + exists ctx1. done.
    + apply IH; [done| |done|].
      * intros s j. rewrite Hsent, Hcode1. case_decide; [done|].
        apply Hzero.
      * intros s. rewrite Hsent. split.
        -- intros Hs. rewrite decide_False.
           ++ apply Hcover. list_mem.
           ++ intros Hr. by apply (Hdisj s).
        -- case_decide as Hr; [by intros [? ?]|].
           intros Hl. apply Hcover in Hl. list_mem.
Qed.

(** *** A round that raises *)

Lemma wait_reported ready ctx s j p :
  s ∈ ready → sentinels ctx !! s = Some j → processes ctx !! j = Some p →
  processes (wait ctx ready) !! j = Some (finish p).
Proof.
  revert ctx p. induction ready as [|s0 rest IH]; intros ctx p Hin Hs Hp.
  - inversion Hin.
  - unfold wait. simpl.
    fold (wait (match sentinels ctx !! s0 with
                | Some index => child_exits index ctx
                | None => ctx
                end) rest).
    destruct (decide (s = s0)) as [<-|Hne].
    + rewrite Hs.
      destruct (wait_inv rest (child_exits j ctx)) as (_ & Hl & Hps & _).
      assert (Hj : processes (child_exits j ctx) !! j = Some (finish p)).
      { by rewrite child_exits_processes, list_lookup_alter_eq, Hp. }
      destruct (processes (wait (child_exits j ctx) rest) !! j)
        as [p0|] eqn:H0.
      * destruct (Hps _ _ H0) as (p1 & H1 & Hrel). simplify_eq.
        destruct Hrel as [->| ->]; [done|]. by rewrite finish_finish.
      * apply lookup_ge_None in H0. apply lookup_lt_Some in Hj. lia.
    + apply elem_of_cons in Hin as [?|Hin]; [done|].
      destruct (sentinels ctx !! s0) as [i|]; [|by apply IH].
      destruct (decide (i = j)) as [->|Hij].
      * rewrite <- (finish_finish p). apply IH; [done| |].
        -- by rewrite child_exits_sentinels.
        -- by rewrite child_exits_processes, list_lookup_alter_eq, Hp.
      * apply IH; [done| |].
        -- by rewrite child_exits_sentinels.
        -- by rewrite child_exits_processes, list_lookup_alter_ne.
Qed.

(** C1. In a well-formed pool, let a round of [join] end by raising.  Then
    a worker that the wait reported had a non-zero exit code, and in the
    pool as the caller finds it every process has been waited for and none
    is alive.  A worker that the wait did not report has been terminated
    if it was alive, and so has ended with the code of SIGTERM; if it had
    exited before, it has ended with its own code.  A worker that the wait
    reported has ended with its own code. *)
Theorem join_raises_after_all_reaped ctx ready e ctx' :
  well_formed ctx → wait_result ctx ready →
  join ctx ready = (Raise e, ctx') →
  (∃ s i c, s ∈ ready ∧ sentinels ctx !! s = Some i ∧
            code_at ctx i = Some c ∧ c ≠ 0) ∧
  length (processes ctx') = length (processes ctx) ∧
  Forall (λ p, is_alive p = false ∧ is_reaped p = true) (processes ctx') ∧
  (∀ j p, processes ctx !! j = Some p →
     (∀ s, s ∈ ready → sentinels ctx !! s ≠ Some j) →
     processes ctx' !! j =
       Some (set_status p (Reaped (if is_alive p then - SIGTERM
                                   else final_code p)))) ∧
  (∀ j p s, processes ctx !! j = Some p →
     s ∈ ready → sentinels ctx !! s = Some j →
     processes ctx' !! j = Some (set_status p (Reaped (final_code p)))).
Proof.
  intros Hwf Hready Hjoin. unfold join in Hjoin.
  case_bool_decide; [congruence|].
  destruct (inspect_ready_returns ready (wait ctx ready)
              (wait_well_formed _ _ Hwf) (wait_wait_result _ _ Hready))
    as (r & ctx1 & Hi).
  rewrite Hi in Hjoin.
  destruct (inspect_ready_inv _ _ _ _ Hi) as (Hlen & Hps & Hr).
  destruct (wait_inv ready ctx) as (Hs0 & Hlen0 & Hps0 & Hcode0 & _).
  destruct r as [i|]; [|congruence].
  simplify_eq. rewrite throw_exception_processes, drain_processes.
  split_and!.
  - destruct (Hr i eq_refl) as (c & Hc & Hne). rewrite Hcode0 in Hc.
    destruct (inspect_ready_blames_reported _ _ _ _ Hi) as (s & Hin & Hl).
    rewrite Hs0 in Hl. by eauto 10.
  - rewrite length_fmap. congruence.
  - rewrite <- drain_processes. apply drain_all_reaped.
  - intros j p Hp Hj.
    assert (Hsame : same_at j ctx1 ctx).
    { eapply same_at_trans; [|by apply wait_other].
      eapply inspect_ready_other; [done|]. intros s Hs. rewrite Hs0.
      by apply Hj. }
    destruct Hsame as (Hsame & _).
    rewrite list_lookup_fmap, Hsame, Hp. simpl. f_equal.
    by destruct p as [s d [c|code|code]].
  - intros j p s Hp Hin Hl.
    pose proof (wait_reported ready ctx s j p Hin Hl Hp) as Hw.
    destruct (processes ctx1 !! j) as [p1|] eqn:H1.
    + destruct (Hps _ _ H1) as (p0 & Hp0 & Hrel).
      rewrite list_lookup_fmap, H1. simpl. f_equal. simplify_eq.
      destruct p as [s0 d [c|code|code]];
        by destruct Hrel as [->| ->].
    + apply lookup_ge_None in H1. apply lookup_lt_Some in Hw. lia.
Qed.
End Spawn.

(** ** Planning with the topology resolver of the specification *)


(** ** The model at work *)

(** [spawn] without joining returns the pool it has started. *)
Example spawn_starts_running_workers :
  spawn linux_Signals one_node_resolver one_node_trainers one_node_trainer_env
    two_gpu_machine returns_7 [] (-1) false false [] [] [] =
  Some {| result :=
            Return (pool_of [ {| sentinel := 100; daemon := false;
                                 status := Running
                                   {| writes_error := [];
                                      writes_return := [PyInt 7];
                                      exit_status := 0 |} |};
                              {| sentinel := 101; daemon := false;
                                 status := Running
                                   {| writes_error := [];
                                      writes_return := [PyInt 7];
                                      exit_status := 0 |} |} ]);
          started := [ {| sentinel := 100; daemon := false;
                          status := Running
                            {| writes_error := [];
                               writes_return := [PyInt 7];
                               exit_status := 0 |} |};
                       {| sentinel := 101; daemon := false;
                          status := Running
                            {| writes_error := [];
                               writes_return := [PyInt 7];
                               exit_status := 0 |} |} ] |}.
Proof. vm_compute. reflexivity. Qed.

(** The same call when worker 1 has run to its end before [spawn]
    returns: it has exited, nobody has waited for it, and its result is on
    its queue. *)
Example spawn_returns_while_workers_run :
  (λ r, (return_queues <$> (match result <$> r with
                            | Some (Return ctx) => Some ctx
                            | _ => None
                            end),
         started <$> r))
    (spawn linux_Signals one_node_resolver one_node_trainers
       one_node_trainer_env two_gpu_machine returns_7 [] (-1) false false []
       [1%nat] []) =
  (Some [[]; [PyInt 7]],
   Some [ {| sentinel := 100; daemon := false;
             status := Running
               {| writes_error := [];
                  writes_return := [PyInt 7];
                  exit_status := 0 |} |};
          {| sentinel := 101; daemon := false; status := Exited 0 |} ]).
Proof. vm_compute. reflexivity. Qed.

(** [spawn] with joining, two workers that return: both results are on
    their queues and both processes are reaped. *)
Example spawn_joins_two_workers :
  (λ r, (return_queues <$> (match result <$> r with
                            | Some (Return ctx) => Some ctx
                            | _ => None
                            end),
         started <$> r))
    (spawn linux_Signals one_node_resolver one_node_trainers
       one_node_trainer_env two_gpu_machine returns_7 [] 2 true false [] []
       [[100]; [101]]) =
  (Some [[PyInt 7]; [PyInt 7]],
   Some [ {| sentinel := 100; daemon := false; status := Reaped 0 |};
          {| sentinel := 101; daemon := false; status := Reaped 0 |} ]).
Proof. vm_compute. reflexivity. Qed.

(** C3 at work: a worker that exits with code 2 and leaves no diagnostic
    makes [join] raise [TypeError], after the pool has been drained. *)
Example join_exit_code_pool_raises_TypeError :
  (join linux_Signals exit_code_pool [101]).1 =
    Raise (TypeError "unsupported operand type(s) for &: 'str' and 'tuple'") ∧
  processes (join linux_Signals exit_code_pool [101]).2 =
    [ {| sentinel := 100; daemon := false; status := Reaped (-15) |};
      {| sentinel := 101; daemon := false; status := Reaped 2 |} ].
Proof. vm_compute. split; reflexivity. Qed.

(** *** Instances of the theorems *)

(** C1 on a pool of two workers: the wait reports worker 1, which has
    exited with code 2, while worker 0 is still running.  Worker 0 is
    terminated and reaped, worker 1 is reaped with its own code. *)
Lemma join_raises_after_all_reaped_witness :
  processes (join linux_Signals exit_code_pool [101]).2 !! 0%nat =
    Some {| sentinel := 100; daemon := false; status := Reaped (- SIGTERM) |} ∧
  processes (join linux_Signals exit_code_pool [101]).2 !! 1%nat =
    Some {| sentinel := 101; daemon := false; status := Reaped 2 |} ∧
  Forall (λ p, is_alive p = false ∧ is_reaped p = true)
    (processes (join linux_Signals exit_code_pool [101]).2).
Proof.
  assert (Hwf : well_formed exit_code_pool) by apply pool_of_well_formed.
  assert (Hready : wait_result exit_code_pool [101]).
  { split; [apply NoDup_singleton|].
    intros s Hs. apply list_elem_of_singleton in Hs as ->.
    exists 1%nat. vm_compute. reflexivity. }
  assert (Hjoin : join linux_Signals exit_code_pool [101] =
    (Raise (TypeError "unsupported operand type(s) for &: 'str' and 'tuple'"),
     (join linux_Signals exit_code_pool [101]).2)).
  { vm_compute. reflexivity. }
  destruct (join_raises_after_all_reaped linux_Signals exit_code_pool [101]
              _ _ Hwf Hready Hjoin) as (_ & _ & Hall & Hother & Hreported).
  split_and!.
  - apply (Hother 0%nat (worker 100 returns_7) eq_refl).
    intros s Hs. apply list_elem_of_singleton in Hs as ->.
    vm_compute. discriminate.
  - apply (Hreported 1%nat (worker 101 exits_with_2) 101 eq_refl).
    + apply list_elem_of_here.
    + vm_compute. reflexivity.
  - exact Hall.
Defined.

(** C2 on a pool of three workers: the first returns, the second and the
    third fail, and [wait] reports all three. *)
Lemma join_reports_first_failure_witness :
  ∃ ctx',
    join linux_Signals three_worker_pool ([100] ++ 101 :: [102]) =
      (Raise (failure_report linux_Signals 1 ["ValueError: boom"%string] 1),
       ctx') ∧
    Forall (λ p, is_alive p = false ∧ is_reaped p = true) (processes ctx') ∧
    (∀ k, sentinels ctx' !! k =
          if decide (k ∈ [100] ++ [101]) then None
          else sentinels three_worker_pool !! k).
Proof.
  apply join_reports_first_failure.
  - apply NoDup_cons. split; [|apply NoDup_singleton].
    intros H. apply list_elem_of_singleton in H. discriminate.
  - intros s' Hs'. apply list_elem_of_singleton in Hs' as ->.
    exists 0%nat. split; vm_compute; reflexivity.
  - vm_compute. reflexivity.
  - vm_compute. reflexivity.
  - discriminate.
  - vm_compute. reflexivity.
Defined.

(** C3 on a pool whose worker was reaped with exit code 2. *)
Lemma throw_exception_exit_code_branch_witness :
  (_throw_exception linux_Signals reaped_with_2_pool 0).1 =
    TypeError "unsupported operand type(s) for &: 'str' and 'tuple'" ∧
  is_WorkerFailure (_throw_exception linux_Signals reaped_with_2_pool 0).1
    = false ∧
  (_throw_exception linux_Signals reaped_with_2_pool 0).1 ≠
    Exception (exit_code_message 0 2).
Proof.
  apply (throw_exception_exit_code_branch linux_Signals reaped_with_2_pool 0
           {| sentinel := 100; daemon := false; status := Reaped 2 |} 2).
  - reflexivity.
  - reflexivity.
  - reflexivity.
  - lia.
Defined.


(** C6 on a machine with two visible devices and the selection 9. *)
Lemma plan_rejects_invisible_device_witness :
  ∃ pre id post e,
    split_comma "9" = pre ++ id :: post ∧
    Forall (λ x, x ∈ env_devices_list two_gpu_machine) pre ∧
    (id ∉ env_devices_list two_gpu_machine) ∧
    _get_subprocess_env_list one_node_resolver one_node_trainers
      one_node_trainer_env two_gpu_machine 1 card_9_options = Raise e ∧
    e = ValueError (card_not_found_message id (env_devices_list two_gpu_machine)) ∧
    is_ConfigurationError e = true ∧
    names (exn_message e) id.
Proof.
  assert (Hbad : ∃ id, id ∈ split_comma "9" ∧
                       id ∉ env_devices_list two_gpu_machine).
  { exists "9"%string. split.
    - apply list_elem_of_here.
    - apply (bool_decide_eq_false_1 _). vm_compute. reflexivity. }
  apply (proj2 (proj2 (plan_rejects_invisible_device linux_Signals
           one_node_resolver one_node_trainers one_node_trainer_env
           two_gpu_machine 1 card_9_options "9" eq_refl Hbad))).
  reflexivity.
Defined.

(** C7 with the unknown option [world_size], on Python 3.8. *)
Lemma spawn_rejects_unknown_option_witness :
  ∃ pre key v post e,
    world_size_options = pre ++ (key, v) :: post ∧
    Forall (λ k, k ∈ supported_options) (pre.*1) ∧
    (key ∉ supported_options) ∧
    spawn linux_Signals one_node_resolver one_node_trainers
      one_node_trainer_env two_gpu_machine returns_7 [] 2 true false
      world_size_options [] [] =
      Some {| result := Raise e; started := [] |} ∧
    e = ValueError (unsupported_option_message key) ∧
    is_ConfigurationError e = true ∧
    names (exn_message e) key.
Proof.
  assert (Hunknown : ∃ key, key ∈ (world_size_options.*1) ∧
                            key ∉ supported_options).
  { exists "world_size"%string. split.
    - apply list_elem_of_here.
    - apply (bool_decide_eq_false_1 _). vm_compute. reflexivity. }
  apply (proj1 (proj2 (spawn_rejects_unknown_option linux_Signals
           one_node_resolver one_node_trainers one_node_trainer_env
           two_gpu_machine returns_7 [] 2 true false world_size_options [] []
           Hunknown))).
  reflexivity.
Defined.

(** C8 on the pool that a call of [join] returning [True] has left. *)
Lemma join_drained_idempotent_witness :
  join linux_Signals (join linux_Signals one_worker_pool [100]).2 [100] =
    (Return true, (join linux_Signals one_worker_pool [100]).2).
Proof.
  apply join_drained_idempotent. right.
  exists one_worker_pool, [100]. vm_compute. reflexivity.
Defined.

(** C9 on a pool whose first worker is interrupted. *)
Lemma interrupted_worker_is_success_witness :
  ∃ b ctx',
    join linux_Signals interrupted_pool [100] = (Return b, ctx') ∧
    processes ctx' !! 0%nat =
      Some {| sentinel := 100; daemon := false; status := Reaped 0 |} ∧
    return_queues ctx' !! 0%nat = return_queues interrupted_pool !! 0%nat ∧
    error_queues ctx' !! 0%nat = error_queues interrupted_pool !! 0%nat.
Proof.
  apply (proj2 (proj2 (proj2 (proj2
           (interrupted_worker_is_success linux_Signals interrupted [] ∅ ∅
              eq_refl))) interrupted_pool 0%nat (worker 100 interrupted)
           eq_refl eq_refl) 100).
  vm_compute. reflexivity.
Defined.

(** C10 on a machine with two visible devices and no options. *)
Lemma spawn_zero_workers_witness :
  ∃ ctx,
    spawn linux_Signals one_node_resolver one_node_trainers
      one_node_trainer_env two_gpu_machine returns_7 [] 0 true false [] []
      [] =
      Some {| result := Return ctx; started := [] |} ∧
    processes ctx = [] ∧
    ∀ ready, join linux_Signals ctx ready = (Return true, ctx).
Proof.
  eapply (proj2 (spawn_zero_workers linux_Signals one_node_resolver
            one_node_trainers one_node_trainer_env two_gpu_machine returns_7
            [] true false [] [] [] _ eq_refl eq_refl _ eq_refl)).
  Unshelve.
  2:{ vm_compute. reflexivity. }
Defined.

(** *** Where the code departs from the specification *)

(** C2.  Two workers fail and [wait] reports both.  The first round blames
    worker 0 and leaves the sentinel of worker 1 in the live set; a second
    call of [join] on the same pool then reports the failure of worker 1:
    two failures have been surfaced for one pool. *)
Lemma join_again_reports_another_failure :
  let r1 := join linux_Signals two_failing_pool [100; 101] in
  let r2 := join linux_Signals r1.2 [101] in
  r1.1 = Raise (Exception (framed_trace_message 0 +:+ "ValueError: boom")) ∧
  sentinels r1.2 !! 101 = Some 1%nat ∧
  r2.1 = Raise (Exception (framed_trace_message 1 +:+ "ValueError: bang")).
Proof. vm_compute. split_and!; reflexivity. Qed.

(** C4.  A user function that ends by [SystemExit(2)] fails without being
    interrupted by the user, and the wrapper puts no diagnostic on the
    error queue. *)
Lemma system_exit_leaves_no_diagnostic :
  exits_with_2 []
    (_set_trainer_env ∅ (_remove_risky_env (environ empty_child))) =
    Raises (SystemExit 2) ∧
  process_exitcode (_func_wrapper exits_with_2 [] ∅ empty_child).2 = 2 ∧
  ¬ (∃ diagnostic,
       diagnostic ∈ error_queue (_func_wrapper exits_with_2 [] ∅ empty_child).1).
Proof.
  split_and!; [reflexivity|reflexivity|].
  intros [diagnostic H]. vm_compute in H. inversion H.
Qed.


(** C6.  The selection names device 9, which is not visible, and the
    options give [cluster_node_ips] without [node_ip]: the error that
    planning raises is the one about the node ip, and its message does not
    name the device. *)
Lemma plan_without_node_ip_does_not_name_card :
  dict_get no_node_ip_card_9_options "selected_gpus" PyNone = PyStr "9" ∧
  "9"%string ∈ split_comma "9" ∧
  ("9"%string ∉ env_devices_list two_gpu_machine) ∧
  ∃ e,
    _get_subprocess_env_list one_node_resolver one_node_trainers
      one_node_trainer_env two_gpu_machine 1 no_node_ip_card_9_options =
      Raise e ∧
    ¬ names (exn_message e) "9".
Proof.
  split_and!.
  - reflexivity.
  - apply list_elem_of_here.
  - apply (bool_decide_eq_false_1 _). vm_compute. reflexivity.
  - exists (ValueError node_ip_missing_message). split; [reflexivity|].
    unfold names. vm_compute. discriminate.
Qed.

(** C7.  On Python 2.7 the options hold the unknown key [world_size], and
    [spawn] raises the error of the version check, whose message does not
    name the key. *)
Lemma spawn_on_old_interpreter_names_no_option :
  "world_size"%string ∈ (world_size_options.*1) ∧
  ("world_size"%string ∉ supported_options) ∧
  ∃ e,
    spawn linux_Signals one_node_resolver one_node_trainers
      one_node_trainer_env old_python_machine returns_7 [] 2 true false
      world_size_options [] [] =
      Some {| result := Raise e; started := [] |} ∧
    e = RuntimeError py_unsupported_message ∧
    ¬ names (exn_message e) "world_size".
Proof.
  split_and!.
  - apply list_elem_of_here.
  - apply (bool_decide_eq_false_1 _). vm_compute. reflexivity.
  - exists (RuntimeError py_unsupported_message).
    split_and!; [reflexivity|reflexivity|].
    unfold names. vm_compute. discriminate.
Qed.

(** *** Instances of the further theorems *)

(** X1 on two supported options. *)
Lemma options_valid_check_accepts_exactly_witness :
  _options_valid_check known_options = Return tt.
Proof.
  apply (proj2 (options_valid_check_accepts_exactly known_options)).
  repeat constructor; apply bool_decide_unpack; vm_compute; exact I.
Defined.

(** X3 on a pool with a running worker. *)
Lemma drain_terminates_and_reaps_witness :
  processes (drain interrupted_pool) !! 1%nat =
    Some {| sentinel := 101; daemon := false; status := Reaped (- SIGTERM) |}.
Proof.
  apply (proj2 (drain_terminates_and_reaps interrupted_pool) 1%nat
           (worker 101 returns_7) eq_refl).
Defined.

(** X5 on a pool whose worker has left a diagnostic. *)
Lemma throw_exception_with_diagnostic_witness :
  (_throw_exception linux_Signals diagnosed_pool 0).1 =
    Exception (framed_trace_message 0 +:+ "ValueError: boom") ∧
  error_queues (_throw_exception linux_Signals diagnosed_pool 0).2 = [[]].
Proof.
  destruct (throw_exception_with_diagnostic linux_Signals diagnosed_pool 0
              "ValueError: boom" [] eq_refl) as (H1 & _ & _ & H2 & _).
  split; [exact H1|exact H2].
Defined.

(** X6 on two processes with the sentinels 100 and 101. *)
Lemma init_finds_each_process_witness :
  sentinels two_returning_pool !! 101 = Some 1%nat ∧
  size (sentinels two_returning_pool) = 2%nat.
Proof.
  assert (Hnd : NoDup (sentinel <$> [worker 100 returns_7;
                                     worker 101 returns_7])).
  { apply NoDup_cons. split; [|apply NoDup_singleton].
    intros H. apply list_elem_of_singleton in H. discriminate. }
  destruct (init_finds_each_process two_gpu_machine
              [worker 100 returns_7; worker 101 returns_7]
              [[]; []] [[]; []] two_returning_pool eq_refl Hnd)
    as (_ & _ & _ & Hiff & Hsize).
  split; [|exact Hsize].
  apply Hiff. exists (worker 101 returns_7). split; reflexivity.
Defined.


(** X8: one device is selected and two workers are asked for. *)
Lemma spawn_with_too_few_records_witness :
  spawn linux_Signals one_node_resolver one_node_trainers
    one_node_trainer_env two_gpu_machine returns_7 [] 2 true false
    card_0_options [0%nat] [] =
    Some {| result := Raise (IndexError "list index out of range");
            started := [exited_0 100] |}.
Proof.
  apply (spawn_with_too_few_records linux_Signals one_node_resolver
           one_node_trainers one_node_trainer_env two_gpu_machine
           returns_7 [] 2 true false card_0_options [0%nat] []
           {| processes_env_list :=
                [ {[ "FLAGS_selected_gpus"%string := "0"%string ]} ];
              printed := None |}
           eq_refl eq_refl eq_refl eq_refl ltac:(vm_compute; lia)).
Defined.

(** X10 with [nprocs = -3]. *)
Lemma spawn_nonpositive_count_witness :
  spawn linux_Signals one_node_resolver one_node_trainers
    one_node_trainer_env two_gpu_machine returns_7 [] (-3) true false [] []
    [] =
    Some {| result := Return {| error_queues := []; return_queues := [];
                                processes := []; sentinels := ∅ |};
            started := [] |}.
Proof.
  eapply (spawn_nonpositive_count linux_Signals one_node_resolver
            one_node_trainers one_node_trainer_env two_gpu_machine returns_7
            [] (-3) true false [] [] []).
  - lia.
  - lia.
  - reflexivity.
  - reflexivity.
  - vm_compute. reflexivity.
  - reflexivity.
Defined.

(** X11: device 1 is selected and five workers are asked for. *)
Lemma plan_accepts_visible_selection_witness :
  _get_subprocess_env_list one_node_resolver one_node_trainers
    one_node_trainer_env two_gpu_machine 5 card_1_options =
    resolve_and_prepare one_node_resolver one_node_trainers
      one_node_trainer_env (resolver_args card_1_options (PyStr "1")).
Proof.
  apply plan_accepts_visible_selection.
  - reflexivity.
  - reflexivity.
  - repeat constructor.
Defined.

(** X12 on a machine with three devices. *)
Lemma plan_auto_selects_every_device_witness :
  _get_subprocess_env_list one_node_resolver one_node_trainers
    one_node_trainer_env three_gpu_machine
    (default_nprocs three_gpu_machine (-1)) [] =
    resolve_and_prepare one_node_resolver one_node_trainers
      one_node_trainer_env
      (resolver_args []
         (PyStr (join_comma
                   ((pretty : Z → string) <$>
                    seqZ 0 (get_cuda_device_count three_gpu_machine))))).
Proof.
  apply plan_auto_selects_every_device.
  - reflexivity.
  - reflexivity.
  - discriminate.
  - left. reflexivity.
Defined.

(** X13 on a pool in which the reported worker exits with code 2 and the
    other worker is still running. *)
Lemma join_failure_terminates_unreported_witness :
  processes (join linux_Signals exit_code_pool [101]).2 !! 0%nat =
    Some {| sentinel := 100; daemon := false; status := Reaped (- SIGTERM) |} ∧
  error_queues (join linux_Signals exit_code_pool [101]).2 !! 0%nat =
    error_queues exit_code_pool !! 0%nat ∧
  return_queues (join linux_Signals exit_code_pool [101]).2 !! 0%nat =
    return_queues exit_code_pool !! 0%nat.
Proof.
  assert (Hwf : well_formed exit_code_pool) by apply pool_of_well_formed.
  assert (Hready : wait_result exit_code_pool [101]).
  { split; [apply NoDup_singleton|].
    intros s Hs. apply list_elem_of_singleton in Hs as ->.
    exists 1%nat. vm_compute. reflexivity. }
  assert (Hjoin : join linux_Signals exit_code_pool [101] =
    (Raise (TypeError "unsupported operand type(s) for &: 'str' and 'tuple'"),
     (join linux_Signals exit_code_pool [101]).2)).
  { vm_compute. reflexivity. }
  apply (join_failure_terminates_unreported linux_Signals exit_code_pool
           [101] _ _ 0%nat (worker 100 returns_7) Hwf Hready Hjoin eq_refl).
  intros s Hs. apply list_elem_of_singleton in Hs as ->.
  vm_compute. discriminate.
Defined.

(** X14 on a pool whose two workers both end with code 0. *)
Lemma join_round_without_failure_witness :
  ∃ ctx',
    join linux_Signals interrupted_pool [100; 101] =
      (Return (bool_decide (size (sentinels ctx') = 0%nat)), ctx') ∧
    (∀ k, sentinels ctx' !! k =
          if decide (k ∈ [100; 101]) then None
          else sentinels interrupted_pool !! k) ∧
    (∀ s j, s ∈ [100; 101] → sentinels interrupted_pool !! s = Some j →
       ∃ p, processes interrupted_pool !! j = Some p ∧
            processes ctx' !! j = Some (set_status p (Reaped 0))) ∧
    (∀ j, (∀ s, s ∈ [100; 101] → sentinels interrupted_pool !! s ≠ Some j) →
       same_at j ctx' interrupted_pool).
Proof.
  apply join_round_without_failure.
  - apply pool_of_well_formed.
  - split.
    + apply NoDup_cons. split; [|apply NoDup_singleton].
      intros H. apply list_elem_of_singleton in H. discriminate.
    + intros s Hs. apply elem_of_cons in Hs as [->|Hs].
      * exists 0%nat. vm_compute. reflexivity.
      * apply list_elem_of_singleton in Hs as ->.
        exists 1%nat. vm_compute. reflexivity.
  - intros s j _ Hl. apply pool_of_well_formed in Hl as [p Hp].
    apply lookup_lt_Some in Hp. simpl in Hp.
    destruct j as [|[|j]]; [reflexivity|reflexivity|lia].
Defined.

(** X15 on a pool of three workers of which the second raises. *)
Lemma worker_exception_reaches_caller_witness :
  ∃ ctx',
    join linux_Signals three_worker_pool ([100] ++ 101 :: [102]) =
      (Raise (Exception (framed_trace_message 1 +:+ "ValueError: boom")),
       ctx') ∧
    error_queues ctx' !! 1%nat = Some [].
Proof.
  apply (worker_exception_reaches_caller linux_Signals three_worker_pool
           [100] 101 [102] 1%nat (worker 101 raises_boom) raises_boom [] ∅ ∅
           "ValueError: boom").
  - apply NoDup_cons. split; [|apply NoDup_singleton].
    intros H. apply list_elem_of_singleton in H. discriminate.
  - intros s' Hs'. apply list_elem_of_singleton in Hs' as ->.
    exists 0%nat. split; vm_compute; reflexivity.
  - vm_compute. reflexivity.
  - reflexivity.
  - reflexivity.
  - reflexivity.
  - reflexivity.
Defined.

(** X16 on a pool whose only worker returns 7. *)
Lemma worker_result_is_on_its_queue_witness :
  ∃ b ctx',
    join linux_Signals one_worker_pool [100] = (Return b, ctx') ∧
    processes ctx' !! 0%nat =
      Some (set_status (worker 100 returns_7) (Reaped 0)) ∧
    return_queues ctx' !! 0%nat = Some ([] ++ [PyInt 7]) ∧
    error_queues ctx' !! 0%nat = error_queues one_worker_pool !! 0%nat.
Proof.
  apply (worker_result_is_on_its_queue linux_Signals one_worker_pool 100
           0%nat (worker 100 returns_7) returns_7 [] ∅ ∅ (PyInt 7) []).
  - vm_compute. reflexivity.
  - reflexivity.
  - reflexivity.
  - reflexivity.
  - reflexivity.
Defined.

(** X17 on a machine with two devices, two workers that return and waits
    that report them one after the other. *)
Lemma spawn_with_join_returns_after_success_witness :
  from_option (λ r, Forall (λ p, status p = Reaped 0) (started r)) False
    (spawn linux_Signals one_node_resolver one_node_trainers
       one_node_trainer_env two_gpu_machine returns_7 [] 2 true false []
       [1%nat] [[100]; [101]]).
Proof.
  assert (E : spawn linux_Signals one_node_resolver one_node_trainers
                one_node_trainer_env two_gpu_machine returns_7 [] 2 true
                false [] [1%nat] [[100]; [101]] =
              Some {| result :=
                        Return {| error_queues := [[]; []];
                                  return_queues := [[PyInt 7]; [PyInt 7]];
                                  processes := [reaped_0 100; reaped_0 101];
                                  sentinels := ∅ |};
                      started := [reaped_0 100; reaped_0 101] |}).
  { vm_compute. reflexivity. }
  rewrite E. simpl.
  apply (spawn_with_join_returns_after_success linux_Signals
           one_node_resolver one_node_trainers one_node_trainer_env
           two_gpu_machine returns_7 [] 2 false [] [1%nat] [[100]; [101]] _
           {| error_queues := [[]; []];
              return_queues := [[PyInt 7]; [PyInt 7]];
              processes := [reaped_0 100; reaped_0 101];
              sentinels := ∅ |}
           ltac:(intros i j _ _; simpl; lia) E eq_refl).
Defined.

(** X18 on a pool of two workers that return, reported one after the
    other. *)
Lemma join_until_done_succeeds_witness :
  ∃ ctx',
    join_until_done linux_Signals [[100]; [101]] two_returning_pool =
      Some (Return tt, ctx') ∧
    size (sentinels ctx') = 0%nat.
Proof.
  apply join_until_done_succeeds.
  - apply pool_of_well_formed.
  - intros s j Hl. apply pool_of_well_formed in Hl as [p Hp].
    apply lookup_lt_Some in Hp. simpl in Hp.
    destruct j as [|[|j]]; [reflexivity|reflexivity|lia].
  - simpl. apply NoDup_cons. split; [|apply NoDup_singleton].
    intros H. apply list_elem_of_singleton in H. discriminate.
  - intros s. simpl. split.
    + intros Hs. apply elem_of_cons in Hs as [->|Hs].
      * exists 0%nat. vm_compute. reflexivity.
      * apply list_elem_of_singleton in Hs as ->.
        exists 1%nat. vm_compute. reflexivity.
    + intros [j Hl].
      apply make_sentinels_in_range in Hl as Hr.
      destruct Hr as [p Hp].
      assert (Hnd : NoDup (sentinel <$> [worker 100 returns_7;
                                         worker 101 returns_7])).
      { apply NoDup_cons. split; [|apply NoDup_singleton].
        intros H. apply list_elem_of_singleton in H. discriminate. }
      apply (proj1 (make_sentinels_lookup_iff _ Hnd)) in Hl
        as (p' & Hp' & <-).
      destruct j as [|[|j]]; simpl in Hp'; simplify_eq; simpl.
      * apply list_elem_of_here.
      * apply list_elem_of_further, list_elem_of_here.
Defined.

(** X19 on a pool whose worker was terminated. *)
Lemma throw_exception_signal_branch_witness :
  (_throw_exception linux_Signals terminated_pool 0).1 =
    Exception (signal_message 0 "SIGTERM") ∧
  names (signal_message 0 "SIGTERM") (pretty 0%nat) ∧
  names (signal_message 0 "SIGTERM") "SIGTERM".
Proof.
  apply (throw_exception_signal_branch linux_Signals terminated_pool 0%nat
           {| sentinel := 100; daemon := false; status := Reaped (- SIGTERM) |}
           (- SIGTERM) "SIGTERM").
  - reflexivity.
  - reflexivity.
  - reflexivity.
  - reflexivity.
  - reflexivity.
Defined.
